(** * comfyui_image_ops: image load, save and resize nodes

    A shallow embedding of [comfyui_image_ops.py].  Tensors are strided
    views over a flat storage, the way torch lays them out; Python
    exceptions are values of [exn] carried by [result]; the file system
    touched by the save node is an explicit state. *)

From Stdlib Require Import ZArith String Ascii SpecFloat Lia.
From stdpp Require Import gmap strings list fin_maps pretty.

(** ** Python exceptions and fallible computations *)

Inductive exn : Type :=
  | ValueError (msg : string)
  | IndexError (msg : string)
  | AttributeError (msg : string)
  | ZeroDivisionError (msg : string)
  | OverflowError (msg : string)
  | RuntimeError (msg : string)
  | TypeError (msg : string)
  | OSError (msg : string).

Inductive result (A : Type) : Type :=
  | Ok (a : A)
  | Raise (e : exn).
Arguments Ok {A} a.
Arguments Raise {A} e.

#[global] Instance result_ret : MRet result := fun A a => Ok a.
#[global] Instance result_bind : MBind result := fun A B f m =>
  match m with
  | Ok a => f a
  | Raise e => Raise e
  end.

(** Python's [tuple[i]] for a non-negative literal index. *)
Definition tuple_get {A} (l : list A) (i : nat) : result A :=
  match l !! i with
  | Some a => Ok a
  | None => Raise (IndexError "tuple index out of range")
  end.

(** ** Floating point

    Floats are IEEE 754 values ([spec_float]) with the operations of
    [SpecFloat], rounding to nearest, ties to even: binary32 for tensor
    elements ([torch.float32]) and binary64 for Python's [float]. *)

Definition f32 : Type := spec_float.

Definition f32_of_Z (z : Z) : f32 := binary_normalize 24 128 z 0 false.
Definition f32_div : f32 -> f32 -> f32 := SFdiv 24 128.
Definition f32_sub : f32 -> f32 -> f32 := SFsub 24 128.
Definition f32_mul : f32 -> f32 -> f32 := SFmul 24 128.
Definition f32_zero : f32 := S754_zero false.
Definition f32_one : f32 := f32_of_Z 1.
Definition f32_255 : f32 := f32_of_Z 255.

#[global] Instance f32_inhabited : Inhabited f32 := populate S754_nan.

(** [torch.clamp(x, lo, hi)] on one element; a NaN stays a NaN. *)
Definition f32_clamp (lo hi x : f32) : f32 :=
  if SFltb x lo then lo else if SFltb hi x then hi else x.

(** The integer part of a float, towards zero; [None] for NaN and the
    infinities. *)
Definition float_trunc (x : spec_float) : option Z :=
  match x with
  | S754_zero _ => Some 0%Z
  | S754_finite s m e =>
      Some (cond_Zopp s (if (0 <=? e)%Z then Z.pos m * 2 ^ e
                         else Z.pos m / 2 ^ (- e)))%Z
  | _ => None
  end.

(** The cast to [uint8] of [tensor.byte()]: the integer part, modulo 256;
    NaN and the infinities (whose cast C leaves undefined) are taken to 0. *)
Definition f32_to_u8 (x : f32) : Z :=
  match float_trunc x with
  | Some z => (z mod 256)%Z
  | None => 0%Z
  end.

Definition float : Type := spec_float.

Definition float_mul : float -> float -> float := SFmul 53 1024.
Definition float_one : float := binary_normalize 53 1024 1 0 false.

(** [float(n)] for a Python int. *)
Definition float_of_int (n : Z) : result float :=
  match binary_normalize 53 1024 n 0 false with
  | S754_infinity _ => Raise (OverflowError "int too large to convert to float")
  | x => Ok x
  end.

(** [n * x] for an int [n] and a float [x]: the int is converted first. *)
Definition int_mul_float (n : Z) (x : float) : result float :=
  y ← float_of_int n; Ok (float_mul y x).

(** [a / b] for two Python ints: the correctly rounded quotient. *)
Definition int_truediv (a b : Z) : result float :=
  if (b =? 0)%Z then Raise (ZeroDivisionError "division by zero")
  else if (a =? 0)%Z then Ok (S754_zero (b <? 0)%Z)
  else
    let '(q, e, l) := SFdiv_core_binary 53 1024 (Z.abs a) 0 (Z.abs b) 0 in
    match binary_round_aux 53 1024 (xorb (a <? 0)%Z (b <? 0)%Z) q e l with
    | S754_infinity _ =>
        Raise (OverflowError "integer division result too large for a float")
    | x => Ok x
    end.

(** Nearest integer to [n / d] for [d > 0], ties to the even one. *)
Definition round_half_even_div (n d : Z) : Z :=
  let q := (n / d)%Z in
  match (2 * (n mod d) ?= d)%Z with
  | Lt => q
  | Gt => (q + 1)%Z
  | Eq => if Z.even q then q else (q + 1)%Z
  end.

(** [round(x)] for a Python float: an int, ties to even. *)
Definition py_round (x : float) : result Z :=
  match x with
  | S754_zero _ => Ok 0%Z
  | S754_infinity _ =>
      Raise (OverflowError "cannot convert float infinity to integer")
  | S754_nan => Raise (ValueError "cannot convert float NaN to integer")
  | S754_finite s m e =>
      Ok (cond_Zopp s (if (0 <=? e)%Z then Z.pos m * 2 ^ e
                       else round_half_even_div (Z.pos m) (2 ^ (- e))))%Z
  end.

(** [int(x)] for a Python float. *)
Definition py_int (x : float) : result Z :=
  match x with
  | S754_infinity _ =>
      Raise (OverflowError "cannot convert float infinity to integer")
  | S754_nan => Raise (ValueError "cannot convert float NaN to integer")
  | _ => Ok (default 0%Z (float_trunc x))
  end.

(** ** Tensors

    A torch tensor is a view: per axis a size and a stride, an offset into
    the storage, and the storage itself.  [permute] and indexing return
    views over the same storage; element-wise arithmetic allocates a fresh
    contiguous tensor. *)

Record axis : Type := Axis { size : nat; stride : nat }.

Record Tensor (A : Type) : Type := MkTensor {
  axes : list axis;
  offset : nat;
  storage : list A
}.
Arguments MkTensor {A} axes offset storage.
Arguments axes {A} t.
Arguments offset {A} t.
Arguments storage {A} t.

(** One entry of a subscript [t[...]]: an int, [start:stop] or [:]. *)
Inductive index : Type :=
  | Int (i : nat)
  | Slice (start stop : nat)
  | Full.

(** All multi-indices of a shape, in row-major order. *)
Fixpoint indices (sh : list nat) : list (list nat) :=
  match sh with
  | [] => [[]]
  | n :: sh' => i ← seq 0 n; (cons i) <$> indices sh'
  end.

(** Axes of a freshly allocated (contiguous, row-major) tensor. *)
Fixpoint contiguous_axes (sh : list nat) : list axis :=
  match sh with
  | [] => []
  | n :: sh' => Axis n (foldr Nat.mul 1 sh') :: contiguous_axes sh'
  end.

(** Position in the storage, relative to the offset, of a multi-index. *)
Fixpoint ravel (ax : list axis) (idx : list nat) : nat :=
  match ax, idx with
  | a :: ax', i :: idx' => i * stride a + ravel ax' idx'
  | _, _ => 0
  end.

Fixpoint in_bounds (ax : list axis) (idx : list nat) : bool :=
  match ax, idx with
  | [], [] => true
  | a :: ax', i :: idx' => (i <? size a) && in_bounds ax' idx'
  | _, _ => false
  end.

(** Subscripting: an int selects and drops its axis, a slice narrows it. *)
Fixpoint getitem_axes (ixs : list index) (ax : list axis) (off : nat)
  : result (list axis * nat) :=
  match ixs, ax with
  | [], _ => Ok (ax, off)
  | _ :: _, [] => Raise (IndexError "too many indices for tensor")
  | Int i :: ixs', a :: ax' =>
      if i <? size a then getitem_axes ixs' ax' (off + i * stride a)
      else Raise (IndexError "index is out of bounds")
  | Slice start stop :: ixs', a :: ax' =>
      let stop' := stop `min` size a in
      let start' := start `min` stop' in
      '(ax'', off') ← getitem_axes ixs' ax' (off + start' * stride a);
      Ok (Axis (stop' - start') (stride a) :: ax'', off')
  | Full :: ixs', a :: ax' =>
      '(ax'', off') ← getitem_axes ixs' ax' off;
      Ok (a :: ax'', off')
  end.

Section TensorOps.
Context {A : Type}.

(** [t.shape] and [len(t.shape)] *)
Definition shape (t : Tensor A) : list nat := size <$> axes t.
Definition ndim (t : Tensor A) : nat := length (axes t).

(** [t[i0, ..., ik].item()] *)
Definition item (t : Tensor A) (idx : list nat) : option A :=
  if in_bounds (axes t) idx then storage t !! (offset t + ravel (axes t) idx)
  else None.

(** A new tensor of the given shape holding [data] in row-major order. *)
Definition contiguous (sh : list nat) (data : list A) : Tensor A :=
  MkTensor (contiguous_axes sh) 0 data.

(** [torch.Tensor.permute]: the number of dims must match, every dim must
    be in range and none may repeat; the result is a view whose i-th axis
    is axis [dims[i]] of the input. *)
Definition permute (dims : list nat) (t : Tensor A) : result (Tensor A) :=
  if negb (length dims =? ndim t) then
    Raise (RuntimeError "permute(sparse_coo): number of dimensions in the tensor input does not match the length of the desired ordering of dimensions")
  else if negb (forallb (fun d => d <? ndim t) dims) then
    Raise (IndexError "Dimension out of range")
  else if negb (bool_decide (NoDup dims)) then
    Raise (RuntimeError "permute(): duplicate dims are not allowed.")
  else
    match mapM (fun d => axes t !! d) dims with
    | Some ax => Ok (MkTensor ax (offset t) (storage t))
    | None => Raise (IndexError "Dimension out of range")
    end.

(** [t[ixs]] *)
Definition getitem (ixs : list index) (t : Tensor A) : result (Tensor A) :=
  '(ax, off) ← getitem_axes ixs (axes t) (offset t);
  Ok (MkTensor ax off (storage t)).

(** [t.unsqueeze(0)] *)
Definition unsqueeze0 (t : Tensor A) : Tensor A :=
  let st := match axes t with
            | a :: _ => size a * stride a
            | [] => 1
            end in
  MkTensor (Axis 1 st :: axes t) (offset t) (storage t).

(** [list(t)]: the sub-tensors [t[0]], [t[1]], ... along the first axis. *)
Definition unbind0 (t : Tensor A) : result (list (Tensor A)) :=
  match axes t with
  | a :: ax =>
      Ok ((fun i => MkTensor ax (offset t + i * stride a) (storage t))
            <$> seq 0 (size a))
  | [] => Raise (TypeError "iteration over a 0-d tensor")
  end.

Context `{!Inhabited A}.

(** The elements in row-major order, as [t.flatten().tolist()]. *)
Definition values (t : Tensor A) : list A :=
  (fun idx => storage t !!! (offset t + ravel (axes t) idx))
    <$> indices (shape t).
End TensorOps.

(** Element-wise application: a fresh contiguous tensor of the same shape. *)
Definition tensor_map {A B} `{!Inhabited A} (f : A -> B) (t : Tensor A)
  : Tensor B :=
  contiguous (shape t) (f <$> values t).

(** ** Format converters *)

(** Convert images in NHWC format to NCHW format. *)
Definition comfyui_to_native_torch {A} (imgs : Tensor A) : result (Tensor A) :=
  permute [0; 3; 1; 2] imgs.

(** Convert images in NCHW format to NHWC format. *)
Definition native_torch_to_comfyui {A} (imgs : Tensor A) : result (Tensor A) :=
  permute [0; 2; 3; 1] imgs.

(** ** Strings

    A Python [str] is a [string] holding its UTF-8 bytes; the characters
    the code looks for (space, slash, dot) are single bytes there. *)

Definition ascii_upper (c : ascii) : ascii :=
  let n := nat_of_ascii c in
  if (97 <=? n) && (n <=? 122) then ascii_of_nat (n - 32) else c.

Fixpoint str_map (f : ascii -> ascii) (s : string) : string :=
  match s with
  | EmptyString => EmptyString
  | String c s' => String (f c) (str_map f s')
  end.

Fixpoint str_forallb (f : ascii -> bool) (s : string) : bool :=
  match s with
  | EmptyString => true
  | String c s' => f c && str_forallb f s'
  end.

Definition is_ascii (s : string) : bool :=
  str_forallb (fun c => nat_of_ascii c <? 128) s.

(** [s.replace(a, b)] for single characters [a] and [b]. *)
Definition str_replace (a b : ascii) (s : string) : string :=
  str_map (fun c => if Ascii.eqb c a then b else c) s.

(** [s.split(sep)] for a single character. *)
Fixpoint str_split (sep : ascii) (s : string) : list string :=
  match s with
  | EmptyString => [EmptyString]
  | String c s' =>
      if Ascii.eqb c sep then EmptyString :: str_split sep s'
      else match str_split sep s' with
           | x :: xs => String c x :: xs
           | [] => [String c EmptyString]
           end
  end.

(** [sep.join(l)] *)
Fixpoint str_join (sep : string) (l : list string) : string :=
  match l with
  | [] => EmptyString
  | [x] => x
  | x :: l' => x +:+ sep +:+ str_join sep l'
  end.

(** [s.rfind(c)]: the index of the last occurrence, [None] for Python's -1. *)
Fixpoint str_rfind (c : ascii) (s : string) : option nat :=
  match s with
  | EmptyString => None
  | String a s' =>
      match str_rfind c s' with
      | Some i => Some (S i)
      | None => if Ascii.eqb a c then Some 0 else None
      end
  end.

(** [s.lstrip(c)] and [s.rstrip(c)] *)
Fixpoint str_lstrip (c : ascii) (s : string) : string :=
  match s with
  | String a s' => if Ascii.eqb a c then str_lstrip c s' else s
  | EmptyString => EmptyString
  end.

Fixpoint str_rstrip (c : ascii) (s : string) : string :=
  match s with
  | EmptyString => EmptyString
  | String a s' =>
      match str_rstrip c s' with
      | EmptyString => if Ascii.eqb a c then EmptyString else String a EmptyString
      | r => String a r
      end
  end.

(** [s[-1]] when [s] is not empty. *)
Fixpoint str_last (s : string) : option ascii :=
  match s with
  | EmptyString => None
  | String a EmptyString => Some a
  | String _ s' => str_last s'
  end.

(** ** pathlib and os.path (POSIX flavour)

    A pure path is its root (empty, one slash or two) and its components;
    empty components and single dots are dropped when a path is parsed. *)

Record PurePath : Type := MkPath { root : string; parts : list string }.

Definition sep : ascii := "/"%char.
Definition dot : ascii := "."%char.

(** A string without a path separator. *)
Definition nosep (s : string) : Prop :=
  str_forallb (fun c => negb (Ascii.eqb c sep)) s = true.

(** [Path(s)] *)
Definition Path (s : string) : PurePath :=
  let rel := str_lstrip sep s in
  let k := String.length s - String.length rel in
  let root := if k =? 0 then "" else if k =? 2 then "//" else "/" in
  MkPath root
    (filter (fun x => x ≠ "" ∧ x ≠ ".") (str_split sep rel)).

(** [str(p)] *)
Definition Path_str (p : PurePath) : string :=
  match root p, parts p with
  | "", [] => "."
  | r, l => r +:+ str_join "/" l
  end.

(** [p.name], [p.suffix] and [p.stem] *)
Definition Path_name (p : PurePath) : string := default "" (last (parts p)).

Definition Path_suffix (p : PurePath) : string :=
  let name := Path_name p in
  match str_rfind dot name with
  | Some i =>
      if (0 <? i) && (i <? String.length name - 1)
      then substring i (String.length name - i) name
      else ""
  | None => ""
  end.

Definition Path_stem (p : PurePath) : string :=
  let name := Path_name p in
  match str_rfind dot name with
  | Some i =>
      if (0 <? i) && (i <? String.length name - 1)
      then substring 0 i name
      else name
  | None => name
  end.

(** [p.parent] *)
Definition Path_parent (p : PurePath) : PurePath :=
  MkPath (root p) (removelast (parts p)).

(** [p.with_name(name)]: the path must have a name, and the new name must
    be a single component. *)
Definition Path_with_name (p : PurePath) (name : string)
  : result PurePath :=
  if bool_decide (Path_name p = "") then
    Raise (ValueError "path has an empty name")
  else
    let q := Path name in
    if bool_decide (name = "") || bool_decide (str_last name = Some sep)
       || negb (bool_decide (root q = ""))
       || negb (length (parts q) =? 1)
    then Raise (ValueError "Invalid name")
    else Ok (MkPath (root p) (removelast (parts p) ++ [name])).

(** [p.with_stem(stem)] *)
Definition Path_with_stem (p : PurePath) (stem : string)
  : result PurePath :=
  Path_with_name p (stem +:+ Path_suffix p).

(** [os.path.split(p)] *)
Definition os_path_split (p : string) : string * string :=
  let i := match str_rfind sep p with Some i => S i | None => 0 end in
  let head := substring 0 i p in
  let tail := substring i (String.length p - i) p in
  let head :=
    if negb (bool_decide (head = ""))
       && negb (bool_decide (str_lstrip sep head = ""))
    then str_rstrip sep head else head in
  (head, tail).

(** ** Images, files and the libraries outside the repository *)

(** A decoded PIL image: its mode, size and bands, and the bytes of its
    pixels row by row, band after band within a pixel. *)
Record PILImage : Type := MkImage {
  pil_mode : string;
  pil_width : nat;
  pil_height : nat;
  pil_bands : nat;
  pil_data : list Z
}.

(** Band [b] of the pixel in row [h] and column [w]. *)
Definition pil_band_at (im : PILImage) (h w b : nat) : option Z :=
  pil_data im !! ((h * pil_width im + w) * pil_bands im + b).

(** An image of [mode] with [bands] bands is well formed when every pixel
    has its bytes. *)
Definition pil_valid (mode : string) (bands : nat) (im : PILImage) : Prop :=
  pil_mode im = mode ∧ pil_bands im = bands ∧
  length (pil_data im) = pil_height im * (pil_width im * bands).

(** What [Image.save] leaves on disk: the image, its text chunks in the
    order they were added, and the compression level. *)
Record PngFile : Type := MkPng {
  png_image : PILImage;
  png_text : list (string * string);
  png_compress_level : Z
}.

(** The file system: the directories made and the files written. *)
Record World : Type := MkWorld {
  dirs : gset string;
  files : gmap string PngFile
}.

Inductive io_op : Type :=
  | Mkdir (path : string)
  | SaveFile (path : string).

(** Modelled from the spec: the interpolation kernels of torchvision's
    [InterpolationMode], which is not part of the repository; the spec
    gives the closed enumeration bicubic, bilinear, nearest,
    nearest-exact. *)
Inductive InterpolationMode : Type :=
  | NEAREST
  | NEAREST_EXACT
  | BILINEAR
  | BICUBIC.

Definition InterpolationMode_members : list (string * InterpolationMode) :=
  [("NEAREST", NEAREST); ("NEAREST_EXACT", NEAREST_EXACT);
   ("BILINEAR", BILINEAR); ("BICUBIC", BICUBIC)].

Definition kernel_names : list string :=
  ["BICUBIC"; "BILINEAR"; "NEAREST"; "NEAREST_EXACT"].

(** [getattr(InterpolationMode, name)] *)
Definition getattr_InterpolationMode (name : string)
  : result InterpolationMode :=
  match list_find (fun m => m.1 = name) InterpolationMode_members with
  | Some (_, m) => Ok m.2
  | None =>
      Raise (AttributeError
               ("type object 'InterpolationMode' has no attribute '"
                  +:+ name +:+ "'"))
  end.

(** The collaborators the nodes delegate to: the JSON encoder, the Unicode
    case tables, the image codec, the operating system's verdict on a
    directory creation or a file write, and the resampling kernels. *)
Class External : Type := {
  PyObj : Type;
  json_dumps : PyObj -> string;
  unicode_upper : string -> string;
  Image_open_convert : string -> string -> result PILImage;
  io_error : io_op -> option exn;
  interpolate : InterpolationMode -> bool -> Tensor f32 -> nat -> nat -> list f32
}.

(** Computations that read and write the file system. *)
Definition IO (A : Type) : Type := World -> result A * World.

#[global] Instance IO_ret : MRet IO := fun A a w => (Ok a, w).
#[global] Instance IO_bind : MBind IO := fun A B f m w =>
  match m w with
  | (Ok a, w') => f a w'
  | (Raise e, w') => (Raise e, w')
  end.

Definition lift {A} (r : result A) : IO A := fun w => (r, w).

(** [for x in l: body(x)] *)
Fixpoint for_each {A} (body : A -> IO unit) (l : list A) : IO unit :=
  match l with
  | [] => mret tt
  | x :: l' => _ ← body x; for_each body l'
  end.

(** [enumerate(l)] *)
Definition enumerate {A} (l : list A) : list (nat * A) :=
  zip (seq 0 (length l)) l.

(** What [save_image] returns. *)
Record descriptor : Type := MkDescriptor {
  filename : string;
  subfolder : string;
  type : string
}.

(** Sizes given to [torchvision.transforms.Resize]: one int, or (h, w). *)
Inductive resize_size : Type :=
  | SizeInt (s : Z)
  | SizeHW (h w : Z).

Section Libraries.
Context `{External}.

(** [s.upper()]: on ASCII strings letter by letter, otherwise by the
    Unicode tables. *)
Definition str_upper (s : string) : string :=
  if is_ascii s then str_map ascii_upper s else unicode_upper s.

(** [path.mkdir(exist_ok=True)] *)
Definition Path_mkdir (p : PurePath) : IO unit := fun w =>
  match io_error (Mkdir (Path_str p)) with
  | Some e => (Raise e, w)
  | None => (Ok tt, MkWorld ({[Path_str p]} ∪ dirs w) (files w))
  end.

(** [img.save(path, pnginfo=metadata, compress_level=level)] *)
Definition Image_save (img : PILImage) (path : string)
    (pnginfo : list (string * string)) (compress_level : Z) : IO unit :=
  fun w =>
  match io_error (SaveFile path) with
  | Some e => (Raise e, w)
  | None =>
      (Ok tt,
       MkWorld (dirs w) (<[path := MkPng img pnginfo compress_level]> (files w)))
  end.

(** [np.array(img)]: (H, W, bands), or (H, W) for a single band. *)
Definition np_array (img : PILImage) : Tensor Z :=
  contiguous
    (if pil_bands img =? 1 then [pil_height img; pil_width img]
     else [pil_height img; pil_width img; pil_bands img])
    (pil_data img).

(** [torchvision.transforms.functional.to_pil_image] on a (C, H, W) float
    tensor: scale by 255, cast to bytes, channels last; the mode follows
    the number of channels. *)
Definition to_pil_image (pic : Tensor f32) : result PILImage :=
  if negb (ndim pic =? 3) then
    Raise (ValueError "pic should be 2/3 dimensional")
  else
    pic ← permute [1; 2; 0] pic;
    let npimg := tensor_map (fun x => f32_to_u8 (f32_mul x f32_255)) pic in
    match shape npimg with
    | [h; w; c] =>
        mode ← match c with
               | 1 => Ok "L" | 2 => Ok "LA" | 3 => Ok "RGB" | 4 => Ok "RGBA"
               | _ => Raise (ValueError "pic should not have > 4 channels")
               end;
        Ok (MkImage mode w h c (storage npimg))
    | _ => Raise (ValueError "pic should be 2/3 dimensional")
    end.

(** The output size [torchvision] computes: the pair as given, or, for a
    single int, that int for the shorter side and the longer side scaled
    by the same ratio, truncated. *)
Definition compute_resized_output_size (h w : Z) (sz : resize_size)
  : result (Z * Z) :=
  match sz with
  | SizeHW new_h new_w => Ok (new_h, new_w)
  | SizeInt s =>
      let '(short, long) := if (w <=? h)%Z then (w, h) else (h, w) in
      q ← int_truediv (s * long) short;
      new_long ← py_int q;
      Ok (if (w <=? h)%Z then (new_long, s) else (s, new_long))
  end.

(** [torchvision.transforms.Resize(size, interpolation, antialias)(img)] on
    a tensor whose last two axes are height and width: an image that
    already has the output size is returned as it is; otherwise the
    sizes must be positive and the result is a fresh tensor with the
    last two axes replaced, filled by the kernel. *)
Definition Resize (sz : resize_size) (interpolation : InterpolationMode)
    (antialias : bool) (img : Tensor f32) : result (Tensor f32) :=
  match reverse (shape img) with
  | w :: h :: lead =>
      '(new_h, new_w) ← compute_resized_output_size (Z.of_nat h) (Z.of_nat w) sz;
      if bool_decide (Z.of_nat h = new_h ∧ Z.of_nat w = new_w) then Ok img
      else if negb ((ndim img =? 3) || (ndim img =? 4)) then
        Raise (ValueError "Input and output must have the same number of spatial dimensions")
      else if bool_decide (0 < new_h ∧ 0 < new_w)%Z
              && (0 <? h) && (0 <? w) && bool_decide (head lead ≠ Some 0)
      then
        Ok (contiguous (reverse lead ++ [Z.to_nat new_h; Z.to_nat new_w])
              (interpolate interpolation antialias img
                 (Z.to_nat new_h) (Z.to_nat new_w)))
      else
        Raise (RuntimeError "Input and output sizes should be greater than 0")
  | _ => Raise (TypeError "Tensor is not a torch image.")
  end.
End Libraries.

(** ** The module's functions and nodes *)

Section Nodes.
Context `{External}.

Definition load_image (path : string) (convert : string)
  : result (Tensor f32) :=
  img ← Image_open_convert path convert;
  let img := tensor_map (fun b => f32_div (f32_of_Z b) f32_255) (np_array img) in
  let img := unsqueeze0 img in
  Ok img.

(** The text chunks [save_image] puts in its [PngInfo]. *)
Definition save_metadata (prompt : option PyObj)
    (extra_pnginfo : option (list (string * PyObj)))
  : list (string * string) :=
  let metadata := [] in
  let metadata :=
    match prompt with
    | Some p => metadata ++ [("prompt", json_dumps p)]
    | None => metadata
    end in
  match extra_pnginfo with
  | Some d => metadata ++ ((fun kv => (kv.1, json_dumps kv.2)) <$> d)
  | None => metadata
  end.

Definition save_image (img : Tensor f32) (path : string)
    (prompt : option PyObj) (extra_pnginfo : option (list (string * PyObj)))
  : IO descriptor :=
  if negb (length (shape img) =? 3) then
    n ← lift (tuple_get (shape img) 0);
    lift (Raise (ValueError
      ("can't take image batch as input, got " +:+ pretty n +:+ " images")))
  else
    img ← lift (permute [2; 0; 1] img);
    c ← lift (tuple_get (shape img) 0);
    if negb (c =? 3) then
      lift (Raise (ValueError
        ("image must have 3 channels, but got " +:+ pretty c +:+ " channels")))
    else
      let img := tensor_map (f32_clamp f32_zero f32_one) img in
      img ← lift (to_pil_image img);
      let metadata := save_metadata prompt extra_pnginfo in
      _ ← Image_save img path metadata 4;
      let '(subfolder, filename) := os_path_split path in
      mret (MkDescriptor filename subfolder "output").

(** JWImageLoadRGB *)
Definition JWImageLoadRGB_execute (path : string) : result (Tensor f32) :=
  load_image path "RGB".

(** JWImageLoadRGBA: the colour tensor and the mask. *)
Definition JWImageLoadRGBA_execute (path : string)
  : result (Tensor f32 * Tensor f32) :=
  img ← load_image path "RGBA";
  color ← getitem [Full; Full; Full; Slice 0 3] img;
  mask ← getitem [Int 0; Full; Full; Int 3] img;
  let mask := tensor_map (f32_sub f32_one) mask in
  Ok (color, mask).

(** JWImageSaveToPath *)
Definition JWImageSaveToPath_execute (path : string) (image : Tensor f32)
    (prompt : option PyObj) (extra_pnginfo : option (list (string * PyObj)))
  : IO unit :=
  let path := Path path in
  _ ← Path_mkdir (Path_parent path);
  n ← lift (tuple_get (shape image) 0);
  if n =? 1 then
    img ← lift (getitem [Int 0] image);
    _ ← save_image img (Path_str path) prompt extra_pnginfo;
    mret tt
  else
    imgs ← lift (unbind0 image);
    for_each (fun '(i, img) =>
        subpath ← lift (Path_with_stem path (Path_stem path +:+ "-" +:+ pretty i));
        _ ← save_image img (Path_str subpath) prompt extra_pnginfo;
        mret tt)
      (enumerate imgs).

(** The kernel named by a node's [interpolation_mode] string. *)
Definition lookup_interpolation_mode (interpolation_mode : string)
  : result InterpolationMode :=
  let interpolation_mode :=
    str_replace " " "_" (str_upper interpolation_mode) in
  getattr_InterpolationMode interpolation_mode.

(** JWImageResize *)
Definition JWImageResize_execute (image : Tensor f32) (width height : Z)
    (interpolation_mode : string) : result (Tensor f32) :=
  interpolation_mode ← lookup_interpolation_mode interpolation_mode;
  let resizer := Resize (SizeHW height width) interpolation_mode true in
  image ← comfyui_to_native_torch image;
  image ← resizer image;
  image ← native_torch_to_comfyui image;
  Ok image.

(** JWMaskResize *)
Definition JWMaskResize_execute (mask : Tensor f32) (width height : Z)
    (interpolation_mode : string) : result (Tensor f32) :=
  interpolation_mode ← lookup_interpolation_mode interpolation_mode;
  let resizer := Resize (SizeHW height width) interpolation_mode true in
  let mask := unsqueeze0 mask in
  mask ← resizer mask;
  mask ← getitem [Int 0] mask;
  Ok mask.

(** JWImageResizeToSquare *)
Definition JWImageResizeToSquare_execute (image : Tensor f32) (size : Z)
    (interpolation_mode : string) : result (Tensor f32) :=
  interpolation_mode ← lookup_interpolation_mode interpolation_mode;
  let resizer := Resize (SizeHW size size) interpolation_mode true in
  image ← comfyui_to_native_torch image;
  image ← resizer image;
  image ← native_torch_to_comfyui image;
  Ok image.

(** JWImageResizeByFactor *)
Definition JWImageResizeByFactor_execute (image : Tensor f32)
    (factor : float) (interpolation_mode : string) : result (Tensor f32) :=
  interpolation_mode ← lookup_interpolation_mode interpolation_mode;
  h ← tuple_get (shape image) 1;
  new_height ← int_mul_float (Z.of_nat h) factor ≫= py_round;
  w ← tuple_get (shape image) 2;
  new_width ← int_mul_float (Z.of_nat w) factor ≫= py_round;
  let resizer := Resize (SizeHW new_height new_width) interpolation_mode true in
  image ← comfyui_to_native_torch image;
  image ← resizer image;
  image ← native_torch_to_comfyui image;
  Ok image.

(** JWImageResizeByShorterSide *)
Definition JWImageResizeByShorterSide_execute (image : Tensor f32)
    (size : Z) (interpolation_mode : string) : result (Tensor f32) :=
  interpolation_mode ← lookup_interpolation_mode interpolation_mode;
  let resizer := Resize (SizeInt size) interpolation_mode true in
  image ← comfyui_to_native_torch image;
  image ← resizer image;
  image ← native_torch_to_comfyui image;
  Ok image.

(** JWImageResizeByLongerSide *)
Definition JWImageResizeByLongerSide_execute (image : Tensor f32)
    (size : Z) (interpolation_mode : string) : result (Tensor f32) :=
  interpolation_mode ← lookup_interpolation_mode interpolation_mode;
  match shape image with
  | [_; h; w; _] =>
      let h := Z.of_nat h in
      let w := Z.of_nat w in
      '(new_w, new_h) ←
        (if (h >=? w)%Z then
           let new_h := size in
           new_w ← int_truediv (w * new_h) h ≫= py_round;
           Ok (new_w, new_h)
         else
           let new_w := size in
           new_h ← int_truediv (h * new_w) w ≫= py_round;
           Ok (new_w, new_h));
      let resizer := Resize (SizeHW new_w new_h) interpolation_mode true in
      image ← comfyui_to_native_torch image;
      image ← resizer image;
      image ← native_torch_to_comfyui image;
      Ok image
  | sh =>
    if length sh <? 4 then
      Raise (ValueError
        ("not enough values to unpack (expected 4, got "
           +:+ pretty (length sh) +:+ ")"))
    else Raise (ValueError "too many values to unpack (expected 4)")
  end.
End Nodes.

(** ** Sample inputs *)

(** An environment in which every directory creation and file write
    succeeds, one RGBA file exists, objects print as themselves and the
    resampler fills its output with zeros. *)
Definition sample_rgba : PILImage :=
  MkImage "RGBA" 2 1 4 [10; 20; 30; 255; 40; 50; 60; 0]%Z.

Definition sample_env : External := {|
  PyObj := string;
  json_dumps := fun s => s;
  unicode_upper := fun s => s;
  Image_open_convert := fun path mode =>
    if bool_decide (path = "rgba.png" ∧ mode = "RGBA") then Ok sample_rgba
    else Raise (OSError "No such file or directory");
  io_error := fun _ => None;
  interpolate := fun _ _ _ h w => replicate (h * w) f32_zero
|}.

Definition sample_nhwc : Tensor nat :=
  MkTensor [Axis 1 12; Axis 2 6; Axis 2 3; Axis 3 1] 0 (seq 0 12).

(** A batch of [n] black 1x2 RGB images, and a single 1x1 RGBA image. *)
Definition sample_batch (n : nat) : Tensor f32 :=
  contiguous [n; 1; 2; 3] (replicate (n * 6) f32_zero).

Definition sample_rgba_tensor : Tensor f32 :=
  contiguous [1; 1; 4] (replicate 4 f32_one).


Definition empty_world : World := MkWorld ∅ ∅.

(** ** More sample inputs *)

Definition sample_rgb : PILImage :=
  MkImage "RGB" 2 1 3 [0; 128; 255; 10; 20; 30]%Z.

(** An environment with one RGB file, in which the write of [out-1.png]
    fails. *)
Definition sample_env_rgb : External := {|
  PyObj := string;
  json_dumps := fun s => s;
  unicode_upper := fun s => s;
  Image_open_convert := fun path mode =>
    if bool_decide (path = "rgb.png" ∧ mode = "RGB") then Ok sample_rgb
    else Raise (OSError "No such file or directory");
  io_error := fun op =>
    match op with
    | SaveFile "out-1.png" => Some (OSError "No space left on device")
    | _ => None
    end;
  interpolate := fun _ _ _ h w => replicate (h * w) f32_zero
|}.


Definition sample_rgba_batch : Tensor f32 :=
  contiguous [2; 1; 1; 4] (replicate 8 f32_one).

(** * Properties *)

(** ** Format converters *)

Lemma ndim_shape {A} (t : Tensor A) : length (shape t) = ndim t.
Proof. unfold shape, ndim. apply length_fmap. Qed.

Lemma tensor_4d_inv {A} (t : Tensor A) :
  ndim t = 4 ->
  exists a0 a1 a2 a3, axes t = [a0; a1; a2; a3].
Proof.
  unfold ndim. destruct t as [ax off st]; simpl.
  destruct ax as [|a0 [|a1 [|a2 [|a3 [|a4 ax]]]]]; simpl; try discriminate.
  intros _. by exists a0, a1, a2, a3.
Qed.

Lemma comfyui_to_native_torch_4d {A} (t : Tensor A) a0 a1 a2 a3 :
  axes t = [a0; a1; a2; a3] ->
  comfyui_to_native_torch t = Ok (MkTensor [a0; a3; a1; a2] (offset t) (storage t)).
Proof.
  intros E. unfold comfyui_to_native_torch, permute, ndim. rewrite E. reflexivity.
Qed.

Lemma native_torch_to_comfyui_4d {A} (t : Tensor A) a0 a1 a2 a3 :
  axes t = [a0; a1; a2; a3] ->
  native_torch_to_comfyui t = Ok (MkTensor [a0; a2; a3; a1] (offset t) (storage t)).
Proof.
  intros E. unfold native_torch_to_comfyui, permute, ndim. rewrite E. reflexivity.
Qed.

(** C1. For every 4-dimensional tensor, NHWC -> NCHW -> NHWC gives back the
    tensor itself (same shape, same element at every index), and so does
    NCHW -> NHWC -> NCHW: the two converters are mutual inverses.  The
    forward converter moves the element at [n, h, w, c] to [n, c, h, w]. *)
Theorem converters_round_trip {A} (t : Tensor A) :
  ndim t = 4 ->
  (comfyui_to_native_torch t ≫= native_torch_to_comfyui) = Ok t /\
  (native_torch_to_comfyui t ≫= comfyui_to_native_torch) = Ok t /\
  exists t', comfyui_to_native_torch t = Ok t' /\
    (forall N H W C, shape t = [N; H; W; C] -> shape t' = [N; C; H; W]) /\
    (forall n h w c, item t' [n; c; h; w] = item t [n; h; w; c]).
Proof.
  intros Hd. destruct (tensor_4d_inv t Hd) as (a0 & a1 & a2 & a3 & E).
  rewrite (comfyui_to_native_torch_4d t _ _ _ _ E).
  rewrite (native_torch_to_comfyui_4d t _ _ _ _ E).
  destruct t as [ax off st]; simpl in *; subst ax.
  split; [reflexivity|]. split; [reflexivity|].
  eexists; split; [reflexivity|]. split.
  - intros N H W C. unfold shape; simpl. intros [= <- <- <- <-]. reflexivity.
  - intros n h w c. unfold item; simpl.
    replace (n * stride a0 + (c * stride a3 + (h * stride a1 + (w * stride a2 + 0))))
      with (n * stride a0 + (h * stride a1 + (w * stride a2 + (c * stride a3 + 0)))) by lia.
    destruct (n <? size a0), (c <? size a3), (h <? size a1), (w <? size a2); reflexivity.
Qed.

(** ** save_image: the validations *)

Lemma shape_3d_inv {A} (t : Tensor A) (n0 n1 n2 : nat) :
  shape t = [n0; n1; n2] ->
  exists s0 s1 s2, axes t = [Axis n0 s0; Axis n1 s1; Axis n2 s2].
Proof.
  unfold shape. destruct (axes t) as [|[m0 s0] [|[m1 s1] [|[m2 s2] [|a ax]]]];
    simpl; try discriminate.
  intros [= -> -> ->]. by exists s0, s1, s2.
Qed.

Lemma shape_4d_inv {A} (t : Tensor A) (n0 n1 n2 n3 : nat) :
  shape t = [n0; n1; n2; n3] ->
  exists s0 s1 s2 s3,
    axes t = [Axis n0 s0; Axis n1 s1; Axis n2 s2; Axis n3 s3].
Proof.
  unfold shape.
  destruct (axes t) as [|[m0 s0] [|[m1 s1] [|[m2 s2] [|[m3 s3] [|a ax]]]]];
    simpl; try discriminate.
  intros [= -> -> -> ->]. by exists s0, s1, s2, s3.
Qed.

(** C3. A single image (H, W, C) whose channel count is not 3 makes
    [save_image] raise the ValueError that names the channel count found,
    and the file system is left as it was: nothing is written. *)
Theorem save_image_wrong_channels `{External} (img : Tensor f32)
    (Hh Ww C : nat) (path : string) (prompt : option PyObj)
    (extra_pnginfo : option (list (string * PyObj))) (w : World) :
  shape img = [Hh; Ww; C] ->
  C ≠ 3 ->
  save_image img path prompt extra_pnginfo w =
    (Raise (ValueError
       ("image must have 3 channels, but got " +:+ pretty C +:+ " channels")),
     w).
Proof.
  intros Hs HC. destruct (shape_3d_inv _ _ _ _ Hs) as (s0 & s1 & s2 & E).
  unfold save_image. rewrite Hs. simpl.
  unfold permute, ndim. rewrite E. simpl.
  unfold mbind, IO_bind, lift. simpl.
  destruct (Nat.eqb_spec C 3) as [->|_]; [done|]. reflexivity.
Qed.



(** ** Interpolation mode lookup *)

Lemma getattr_InterpolationMode_member (name : string) (k : InterpolationMode) :
  (name, k) ∈ InterpolationMode_members ->
  getattr_InterpolationMode name = Ok k.
Proof.
  unfold InterpolationMode_members. rewrite !elem_of_cons, elem_of_nil.
  intros [[= -> ->]|[[= -> ->]|[[= -> ->]|[[= -> ->]|[]]]]]; reflexivity.
Qed.

Lemma getattr_InterpolationMode_unknown (name : string) :
  name ∉ kernel_names ->
  getattr_InterpolationMode name =
    Raise (AttributeError
             ("type object 'InterpolationMode' has no attribute '"
                +:+ name +:+ "'")).
Proof.
  unfold kernel_names. rewrite !not_elem_of_cons. intros (H1 & H2 & H3 & H4 & _).
  unfold getattr_InterpolationMode, InterpolationMode_members. simpl.
  repeat (case_decide; [congruence|]). reflexivity.
Qed.

(** C7. Every resize node normalises its mode string by [upper()] and
    [replace(" ", "_")] and looks the result up among the kernels: a
    string whose normal form names a kernel selects that kernel, and for a
    string whose normal form is none of BICUBIC, BILINEAR, NEAREST,
    NEAREST_EXACT each of the six nodes raises AttributeError, whatever its
    other arguments; no kernel is substituted. *)
Theorem unknown_interpolation_mode_fails `{External} (s : string) :
  let name := str_replace " " "_" (str_upper s) in
  let e :=
    AttributeError
      ("type object 'InterpolationMode' has no attribute '" +:+ name +:+ "'") in
  name ∉ kernel_names ->
  lookup_interpolation_mode s = Raise e /\
  (forall image width height,
     JWImageResize_execute image width height s = Raise e) /\
  (forall mask width height,
     JWMaskResize_execute mask width height s = Raise e) /\
  (forall image size, JWImageResizeToSquare_execute image size s = Raise e) /\
  (forall image factor, JWImageResizeByFactor_execute image factor s = Raise e) /\
  (forall image size,
     JWImageResizeByShorterSide_execute image size s = Raise e) /\
  (forall image size,
     JWImageResizeByLongerSide_execute image size s = Raise e).
Proof.
  intros name e Hn.
  assert (L : lookup_interpolation_mode s = Raise e).
  { unfold lookup_interpolation_mode. fold name.
    by apply getattr_InterpolationMode_unknown. }
  split; [exact L|].
  unfold JWImageResize_execute, JWMaskResize_execute,
    JWImageResizeToSquare_execute, JWImageResizeByFactor_execute,
    JWImageResizeByShorterSide_execute, JWImageResizeByLongerSide_execute.
  rewrite L. repeat split.
Qed.

(** The menu entries of the nodes select the four kernels. *)
Lemma menu_interpolation_modes `{External} :
  lookup_interpolation_mode "bicubic" = Ok BICUBIC /\
  lookup_interpolation_mode "bilinear" = Ok BILINEAR /\
  lookup_interpolation_mode "nearest" = Ok NEAREST /\
  lookup_interpolation_mode "nearest exact" = Ok NEAREST_EXACT.
Proof. repeat split. Qed.

Lemma lookup_interpolation_mode_member `{External} (s : string)
    (k : InterpolationMode) :
  (str_replace " " "_" (str_upper s), k) ∈ InterpolationMode_members ->
  lookup_interpolation_mode s = Ok k.
Proof. apply getattr_InterpolationMode_member. Qed.

(** ** Row-major enumeration of a shape *)

Lemma length_bind_seq {B} (f : nat -> list B) (m j n : nat) :
  (forall x, length (f x) = m) ->
  length (seq j n ≫= f) = n * m.
Proof.
  intros Hf. revert j. induction n as [|n IH]; intros j; simpl; [done|].
  rewrite length_app, Hf, IH. done.
Qed.

Lemma lookup_bind_seq {B} (f : nat -> list B) (m j n i r : nat) :
  (forall x, length (f x) = m) ->
  i < n -> r < m ->
  (seq j n ≫= f) !! (i * m + r) = f (j + i) !! r.
Proof.
  intros Hf. revert j i. induction n as [|n IH]; intros j i Hi Hr; [lia|].
  simpl. destruct i as [|i].
  - rewrite Nat.add_0_r. simpl. apply lookup_app_l. rewrite Hf. done.
  - rewrite lookup_app_r by (rewrite Hf; lia).
    rewrite Hf. replace (S i * m + r - m) with (i * m + r) by lia.
    rewrite IH by lia. f_equal. f_equal. lia.
Qed.

Lemma length_indices (sh : list nat) :
  length (indices sh) = foldr Nat.mul 1 sh.
Proof.
  induction sh as [|n sh IH]; simpl; [done|].
  apply length_bind_seq. intros x. rewrite length_fmap. done.
Qed.

Lemma ravel_contiguous_lt (sh idx : list nat) :
  in_bounds (contiguous_axes sh) idx = true ->
  ravel (contiguous_axes sh) idx < foldr Nat.mul 1 sh.
Proof.
  revert idx. induction sh as [|n sh IH]; intros [|i idx]; simpl; try done.
  - lia.
  - rewrite andb_true_iff, Nat.ltb_lt. intros [Hi Hb].
    specialize (IH _ Hb). nia.
Qed.

Lemma lookup_indices (sh idx : list nat) :
  in_bounds (contiguous_axes sh) idx = true ->
  indices sh !! ravel (contiguous_axes sh) idx = Some idx.
Proof.
  revert idx. induction sh as [|n sh IH]; intros [|i idx]; simpl; try done.
  rewrite andb_true_iff, Nat.ltb_lt. intros [Hi Hb].
  rewrite (lookup_bind_seq _ (foldr Nat.mul 1 sh)).
  - simpl. rewrite list_lookup_fmap, IH by done. done.
  - intros x. rewrite length_fmap. apply length_indices.
  - done.
  - by apply ravel_contiguous_lt.
Qed.

Lemma bind_seq_blocks (m j n : nat) :
  seq j n ≫= (fun i => seq (i * m) m) = seq (j * m) (n * m).
Proof.
  revert j. induction n as [|n IH]; intros j; simpl; [done|].
  rewrite IH, seq_app. do 2 f_equal. lia.
Qed.

Lemma fmap_bind_list {A B C} (g : B -> C) (f : A -> list B) (l : list A) :
  g <$> (l ≫= f) = l ≫= (fun x => g <$> f x).
Proof.
  induction l as [|x l IH]; [done|].
  rewrite !bind_cons, fmap_app, IH. done.
Qed.

Lemma ravel_indices (sh : list nat) :
  ravel (contiguous_axes sh) <$> indices sh = seq 0 (foldr Nat.mul 1 sh).
Proof.
  induction sh as [|n sh IH]; simpl; [done|].
  rewrite fmap_bind_list.
  rewrite (list_bind_ext _ (fun i => seq (i * foldr Nat.mul 1 sh)
                                       (foldr Nat.mul 1 sh)) _ (seq 0 n));
    [apply bind_seq_blocks| |done].
  intros i. rewrite <- list_fmap_compose.
  replace (seq (i * foldr Nat.mul 1 sh) (foldr Nat.mul 1 sh))
    with (Nat.add (i * foldr Nat.mul 1 sh) <$> seq 0 (foldr Nat.mul 1 sh))
    by (rewrite fmap_add_seq; f_equal; lia).
  rewrite <- IH, <- list_fmap_compose. done.
Qed.

Lemma in_bounds_contiguous (ax : list axis) (idx : list nat) :
  in_bounds (contiguous_axes (size <$> ax)) idx = in_bounds ax idx.
Proof.
  revert idx. induction ax as [|a ax IH]; intros [|i idx]; simpl; try done.
  by rewrite IH.
Qed.

Lemma fmap_lookup_total_seq {A} `{!Inhabited A} (l : list A) :
  (fun k => l !!! k) <$> seq 0 (length l) = l.
Proof.
  apply list_eq. intros i. rewrite list_lookup_fmap.
  destruct (decide (i < length l)) as [Hi|Hi].
  - rewrite lookup_seq_lt by done. simpl.
    symmetry. by apply list_lookup_lookup_total_lt.
  - rewrite lookup_seq_ge, lookup_ge_None_2 by lia. done.
Qed.

Lemma shape_contiguous {A} (sh : list nat) (data : list A) :
  shape (contiguous sh data) = sh.
Proof.
  unfold shape, contiguous. simpl.
  induction sh as [|n sh IH]; [done|]. csimpl. by f_equal.
Qed.

(** The values of a fresh tensor are the data it was built from. *)
Lemma values_contiguous {A} `{!Inhabited A} (sh : list nat) (data : list A) :
  length data = foldr Nat.mul 1 sh ->
  values (contiguous sh data) = data.
Proof.
  intros Hl. unfold values. rewrite shape_contiguous.
  unfold contiguous. simpl.
  trans ((fun k => data !!! k) <$> (ravel (contiguous_axes sh) <$> indices sh)).
  { rewrite <- list_fmap_compose. by apply list_fmap_ext. }
  rewrite ravel_indices, <- Hl. apply fmap_lookup_total_seq.
Qed.

(** An element-wise operation acts on the element at every index. *)
Lemma item_tensor_map {A B} `{!Inhabited A} (f : A -> B) (t : Tensor A)
    (idx : list nat) (x : A) :
  item t idx = Some x ->
  item (tensor_map f t) idx = Some (f x).
Proof.
  unfold item, tensor_map, contiguous, values, shape. simpl.
  rewrite in_bounds_contiguous.
  destruct (in_bounds (axes t) idx) eqn:Hb; [|done]. intros Hx.
  rewrite !list_lookup_fmap, lookup_indices
    by (by rewrite in_bounds_contiguous).
  simpl. do 2 f_equal. by apply list_lookup_total_correct.
Qed.

(** ** The RGBA loader *)

(** What [load_image] returns for a well-formed decoded image with
    [bands > 1] bands: a (1, H, W, bands) tensor over the scaled bytes. *)
Lemma load_image_valid `{External} (path mode : string) (bands : nat)
    (im : PILImage) :
  Image_open_convert path mode = Ok im ->
  pil_valid mode bands im ->
  bands ≠ 1 ->
  load_image path mode =
    Ok (unsqueeze0
          (contiguous [pil_height im; pil_width im; bands]
             ((fun b => f32_div (f32_of_Z b) f32_255) <$> pil_data im))).
Proof.
  intros Hopen (_ & Hb & Hl) Hne. unfold load_image. rewrite Hopen. simpl.
  unfold np_array. rewrite Hb.
  destruct (Nat.eqb_spec bands 1) as [|_]; [done|].
  unfold tensor_map. rewrite shape_contiguous, values_contiguous; [done|].
  simpl. rewrite Hl. lia.
Qed.

Lemma load_rgba_result `{External} (path : string) (im : PILImage) :
  Image_open_convert path "RGBA" = Ok im ->
  pil_valid "RGBA" 4 im ->
  let data := (fun b => f32_div (f32_of_Z b) f32_255) <$> pil_data im in
  let sH := pil_width im * (4 * 1) in
  JWImageLoadRGBA_execute path =
    Ok (MkTensor [Axis 1 (pil_height im * sH); Axis (pil_height im) sH;
                  Axis (pil_width im) (4 * 1); Axis 3 1] 0 data,
        tensor_map (f32_sub f32_one)
          (MkTensor [Axis (pil_height im) sH; Axis (pil_width im) (4 * 1)]
             (0 + 0 * (pil_height im * sH) + 3 * 1) data)).
Proof.
  intros Hopen Hv data sH. unfold JWImageLoadRGBA_execute.
  rewrite (load_image_valid path "RGBA" 4 im Hopen Hv) by lia.
  reflexivity.
Qed.

(** C5. For a file that decodes to a well-formed RGBA image, the mask the
    RGBA load node returns holds, at every row [h] and column [w], 1 minus
    the alpha byte of that pixel divided by 255 (in float32); it has one
    entry per pixel.  If every alpha byte is 255 the mask is 0 everywhere,
    and if every alpha byte is 0 the mask is 1 everywhere. *)
Theorem load_rgba_mask_inverts_alpha `{External} (path : string)
    (im : PILImage) :
  Image_open_convert path "RGBA" = Ok im ->
  pil_valid "RGBA" 4 im ->
  exists color mask,
    JWImageLoadRGBA_execute path = Ok (color, mask) /\
    length (values mask) = pil_height im * pil_width im /\
    (forall h w a,
       h < pil_height im -> w < pil_width im ->
       pil_band_at im h w 3 = Some a ->
       item mask [h; w] =
         Some (f32_sub f32_one (f32_div (f32_of_Z a) f32_255))) /\
    ((forall h w, h < pil_height im -> w < pil_width im ->
        pil_band_at im h w 3 = Some 255%Z) ->
     forall h w, h < pil_height im -> w < pil_width im ->
       item mask [h; w] = Some f32_zero) /\
    ((forall h w, h < pil_height im -> w < pil_width im ->
        pil_band_at im h w 3 = Some 0%Z) ->
     forall h w, h < pil_height im -> w < pil_width im ->
       item mask [h; w] = Some f32_one).
Proof.
  intros Hopen Hv. eexists _, _. split; [by apply load_rgba_result|].
  assert (Hitem : forall h w a,
    h < pil_height im -> w < pil_width im ->
    pil_band_at im h w 3 = Some a ->
    item (tensor_map (f32_sub f32_one)
            (MkTensor [Axis (pil_height im) (pil_width im * (4 * 1));
                       Axis (pil_width im) (4 * 1)]
               (0 + 0 * (pil_height im * (pil_width im * (4 * 1))) + 3 * 1)
               ((fun b => f32_div (f32_of_Z b) f32_255) <$> pil_data im)))
         [h; w] =
    Some (f32_sub f32_one (f32_div (f32_of_Z a) f32_255))).
  { intros h w a Hh Hw Ha. apply item_tensor_map.
    unfold item. simpl.
    destruct (Nat.ltb_spec h (pil_height im)); [|lia].
    destruct (Nat.ltb_spec w (pil_width im)); [|lia]. simpl.
    rewrite list_lookup_fmap.
    unfold pil_band_at in Ha. destruct Hv as (_ & Hb & _). rewrite Hb in Ha.
    match goal with
    | |- _ <$> _ !! ?k = _ =>
        replace k with ((h * pil_width im + w) * 4 + 3) by lia
    end.
    by rewrite Ha. }
  split; [|split; [exact Hitem|split]].
  - unfold values, tensor_map.
    rewrite length_fmap, shape_contiguous, length_indices.
    unfold shape. simpl. lia.
  - intros Hall h w Hh Hw. by rewrite (Hitem h w 255%Z Hh Hw (Hall h w Hh Hw)).
  - intros Hall h w Hh Hw. by rewrite (Hitem h w 0%Z Hh Hw (Hall h w Hh Hw)).
Qed.

(** C6, as the code has it.  The mask returned by the RGBA load node is
    2-dimensional, of shape (H, W): it is taken from the first batch
    element, so it has no batch axis; the colour tensor next to it has
    shape (1, H, W, 3). *)
Theorem load_rgba_mask_shape `{External} (path : string) (im : PILImage) :
  Image_open_convert path "RGBA" = Ok im ->
  pil_valid "RGBA" 4 im ->
  exists color mask,
    JWImageLoadRGBA_execute path = Ok (color, mask) /\
    shape mask = [pil_height im; pil_width im] /\
    shape color = [1; pil_height im; pil_width im; 3].
Proof.
  intros Hopen Hv. eexists _, _. split; [by apply load_rgba_result|].
  split; [|reflexivity].
  unfold tensor_map. by rewrite shape_contiguous.
Qed.

(** C6 as stated fails: for a 2x1 RGBA file the mask has shape (1, 2),
    two dimensions and not three. *)
Lemma load_rgba_mask_not_3d :
  exists color mask,
    @JWImageLoadRGBA_execute sample_env "rgba.png" = Ok (color, mask) /\
    shape mask = [1; 2] /\ ndim mask ≠ 3.
Proof.
  eexists _, _. split; [reflexivity|]. split; [reflexivity|].
  vm_compute. lia.
Qed.

(** ** Strings and paths *)

Lemma str_app_cons (c : ascii) (s t : string) :
  String c s +:+ t = String c (s +:+ t).
Proof. reflexivity. Qed.

Lemma str_app_nil_l (t : string) : "" +:+ t = t.
Proof. reflexivity. Qed.


Lemma str_app_assoc (s t u : string) : (s +:+ t) +:+ u = s +:+ (t +:+ u).
Proof.
  induction s as [|c s IH]; [done|]. rewrite !str_app_cons. by f_equal.
Qed.

Lemma nosep_cons (c : ascii) (s : string) :
  nosep (String c s) <-> c ≠ sep /\ nosep s.
Proof.
  unfold nosep. simpl. rewrite andb_true_iff, negb_true_iff.
  by rewrite Ascii.eqb_neq.
Qed.

Lemma nosep_app (s t : string) : nosep (s +:+ t) <-> nosep s /\ nosep t.
Proof.
  induction s as [|c s IH].
  - rewrite str_app_nil_l. unfold nosep at 2. simpl. tauto.
  - rewrite str_app_cons, !nosep_cons, IH. tauto.
Qed.

Lemma nosep_substring (n m : nat) (s : string) :
  nosep s -> nosep (substring n m s).
Proof.
  revert n m. induction s as [|c s IH]; intros [|n] [|m]; simpl; try done.
  - rewrite !nosep_cons. intros [? ?]. split; [done|]. by apply IH.
  - rewrite nosep_cons. intros [_ ?]. by apply IH.
  - rewrite nosep_cons. intros [_ ?]. by apply IH.
Qed.

Lemma nosep_pretty_N_go (x : N) (s : string) :
  nosep s -> nosep (pretty_N_go x s).
Proof.
  revert s. induction (N.lt_wf_0 x) as [x _ IH]; intros s Hs.
  destruct (decide (x = 0%N)) as [->|Hx]; [done|].
  rewrite pretty_N_go_step by lia. apply IH.
  - apply N.div_lt; lia.
  - apply nosep_cons. split; [|done].
    unfold pretty_N_char. by repeat case_match.
Qed.

Lemma nosep_pretty_nat (i : nat) : nosep (pretty i).
Proof.
  unfold pretty, pretty_nat, pretty, pretty_N.
  case_decide; [done|]. by apply nosep_pretty_N_go.
Qed.

Lemma str_split_nosep (s x : string) : x ∈ str_split sep s -> nosep x.
Proof.
  revert x. induction s as [|c s IH]; intros x; simpl.
  - rewrite list_elem_of_singleton. by intros ->.
  - destruct (Ascii.eqb_spec c sep) as [->|Hc].
    + rewrite elem_of_cons. intros [->|?]; [done|]. by apply IH.
    + destruct (str_split sep s) as [|y ys] eqn:E.
      * rewrite list_elem_of_singleton. intros ->.
        by apply nosep_cons.
      * rewrite elem_of_cons. intros [->|Hx].
        -- apply nosep_cons. split; [done|]. apply IH. by left.
        -- apply IH. by right.
Qed.

Lemma str_lstrip_nosep (s : string) : nosep s -> str_lstrip sep s = s.
Proof.
  destruct s as [|c s]; [done|]. rewrite nosep_cons. intros [Hc _]. simpl.
  by destruct (Ascii.eqb_spec c sep).
Qed.

Lemma str_split_id (s : string) : nosep s -> str_split sep s = [s].
Proof.
  induction s as [|c s IH]; [done|]. rewrite nosep_cons. intros [Hc Hs].
  simpl. destruct (Ascii.eqb_spec c sep); [done|]. by rewrite IH.
Qed.

Lemma str_last_nosep (s : string) : nosep s -> str_last s ≠ Some sep.
Proof.
  induction s as [|c s IH]; [done|]. rewrite nosep_cons. intros [Hc Hs].
  simpl. destruct s; [congruence|]. by apply IH.
Qed.

(** A single well-formed component parses to itself. *)
Lemma Path_component (x : string) :
  nosep x -> x ≠ "" -> x ≠ "." -> Path x = MkPath "" [x].
Proof.
  intros Hx H0 H1. unfold Path.
  rewrite str_lstrip_nosep, str_split_id, Nat.sub_diag by done.
  rewrite filter_cons_True by done. done.
Qed.

Lemma Path_parts_nosep (s x : string) : x ∈ parts (Path s) -> nosep x.
Proof.
  unfold Path. simpl. rewrite list_elem_of_filter. intros [_ Hx].
  eapply str_split_nosep, Hx.
Qed.

Lemma Path_name_nosep (s : string) : nosep (Path_name (Path s)).
Proof.
  unfold Path_name. destruct (last (parts (Path s))) as [x|] eqn:E; [|done].
  simpl. apply (Path_parts_nosep s). rewrite last_Some in E.
  destruct E as [l' ->]. apply elem_of_app. right. by left.
Qed.

Lemma Path_stem_nosep (s : string) : nosep (Path_stem (Path s)).
Proof.
  unfold Path_stem. pose proof (Path_name_nosep s).
  repeat case_match; try done. by apply nosep_substring.
Qed.

Lemma Path_suffix_nosep (s : string) : nosep (Path_suffix (Path s)).
Proof.
  unfold Path_suffix. pose proof (Path_name_nosep s).
  repeat case_match; try done. by apply nosep_substring.
Qed.



(** ** Naming of batch files *)




(** [with_stem] succeeds on the indexed stem of a parsed path that has a
    name, and replaces the last component. *)
Lemma Path_with_stem_index (s : string) (i : nat) :
  let p := Path s in
  Path_name p ≠ "" ->
  Path_with_stem p (Path_stem p +:+ "-" +:+ pretty i) =
    Ok (MkPath (root p)
          (removelast (parts p)
             ++ [Path_stem p +:+ "-" +:+ pretty i +:+ Path_suffix p])).
Proof.
  intros p Hn. unfold Path_with_stem, Path_with_name.
  rewrite bool_decide_eq_false_2 by done.
  rewrite !str_app_assoc.
  set (name := Path_stem p +:+ "-" +:+ pretty i +:+ Path_suffix p).
  assert (Hsep : nosep name).
  { unfold name. rewrite !nosep_app.
    split; [apply Path_stem_nosep|]. split; [done|].
    split; [apply nosep_pretty_nat | apply Path_suffix_nosep]. }
  assert (H0 : name ≠ "").
  { unfold name. by destruct (Path_stem p). }
  assert (H1 : name ≠ ".").
  { unfold name. destruct (Path_stem p) as [|c [|c' t]]; done. }
  rewrite (Path_component name) by done. simpl.
  rewrite (bool_decide_eq_false_2 (name = "")) by done.
  rewrite (bool_decide_eq_false_2 (str_last name = Some sep))
    by by apply str_last_nosep.
  done.
Qed.

(** ** save_image and the save node *)

Lemma save_image_ok `{External} (img : Tensor f32) (Hh Ww : nat)
    (path : string) (prompt : option PyObj)
    (extra_pnginfo : option (list (string * PyObj))) (w : World) :
  shape img = [Hh; Ww; 3] ->
  io_error (SaveFile path) = None ->
  exists (pil : PILImage) (d : descriptor),
    save_image img path prompt extra_pnginfo w =
      (Ok d,
       MkWorld (dirs w)
         (<[path := MkPng pil (save_metadata prompt extra_pnginfo) 4]>
            (files w))).
Proof.
  intros Hs Hio. destruct (shape_3d_inv _ _ _ _ Hs) as (s0 & s1 & s2 & E).
  unfold save_image. rewrite Hs. simpl.
  unfold permute at 1, ndim. rewrite E. simpl.
  unfold mbind, IO_bind, lift. simpl.
  unfold Image_save. rewrite Hio. eauto.
Qed.

(** Whatever it is given, [save_image] touches no file but [path]. *)
Lemma save_image_frame `{External} (img : Tensor f32) (path : string)
    (prompt : option PyObj) (extra_pnginfo : option (list (string * PyObj)))
    (w : World) (q : string) :
  q ≠ path ->
  files (save_image img path prompt extra_pnginfo w).2 !! q = files w !! q.
Proof.
  intros Hq. unfold save_image, mbind, IO_bind, lift, Image_save.
  repeat case_match; simplify_eq/=; try done.
  by rewrite lookup_insert_ne.
Qed.

Lemma execute_single_unfold `{External} (path : string) (image : Tensor f32)
    (Hh Ww C : nat) (prompt : option PyObj)
    (extra_pnginfo : option (list (string * PyObj))) (w : World) :
  shape image = [1; Hh; Ww; C] ->
  exists img, shape img = [Hh; Ww; C] /\
    JWImageSaveToPath_execute path image prompt extra_pnginfo w =
      match io_error (Mkdir (Path_str (Path_parent (Path path)))) with
      | Some e => (Raise e, w)
      | None =>
          match save_image img (Path_str (Path path)) prompt extra_pnginfo
                  (MkWorld ({[Path_str (Path_parent (Path path))]} ∪ dirs w)
                     (files w)) with
          | (Ok _, w') => (Ok tt, w')
          | (Raise e, w') => (Raise e, w')
          end
      end.
Proof.
  intros Hs. destruct (shape_4d_inv _ _ _ _ _ Hs) as (s0 & s1 & s2 & s3 & E).
  exists (MkTensor [Axis Hh s1; Axis Ww s2; Axis C s3]
            (offset image + 0 * s0) (storage image)).
  split; [done|].
  unfold JWImageSaveToPath_execute, mbind, IO_bind, Path_mkdir, lift.
  destruct (io_error _); [done|].
  rewrite Hs. simpl. unfold getitem. rewrite E. simpl.
  by destruct (save_image _ _ _ _ _) as [[d|e] w'].
Qed.

(** C9. A batch of exactly one image is saved to the base path itself, as
    [Path] prints it: no other file is touched, whatever the image; and
    when the image has 3 channels and the directory creation and the
    write succeed, exactly that one file is written, with no index
    suffix. *)
Theorem save_single_image_no_suffix `{External} (path : string)
    (image : Tensor f32) (Hh Ww C : nat) (prompt : option PyObj)
    (extra_pnginfo : option (list (string * PyObj))) (w : World) :
  shape image = [1; Hh; Ww; C] ->
  let p := Path path in
  let r := JWImageSaveToPath_execute path image prompt extra_pnginfo w in
  (forall q, q ≠ Path_str p -> files r.2 !! q = files w !! q) /\
  (C = 3 ->
   io_error (Mkdir (Path_str (Path_parent p))) = None ->
   io_error (SaveFile (Path_str p)) = None ->
   exists pil,
     r = (Ok tt,
          MkWorld ({[Path_str (Path_parent p)]} ∪ dirs w)
            (<[Path_str p := MkPng pil (save_metadata prompt extra_pnginfo) 4]>
               (files w)))).
Proof.
  intros Hs p r.
  destruct (execute_single_unfold path image Hh Ww C prompt extra_pnginfo w Hs)
    as (img & Hi & Hr).
  fold p in Hr. fold r in Hr. split.
  - intros q Hq. rewrite Hr. destruct (io_error _); [done|].
    pose proof (save_image_frame img (Path_str p) prompt extra_pnginfo
                  (MkWorld ({[Path_str (Path_parent p)]} ∪ dirs w) (files w))
                  q Hq) as Hf.
    by destruct (save_image _ _ _ _ _) as [[d|e] w'].
  - intros -> Hmk Hsv. rewrite Hr, Hmk.
    destruct (save_image_ok img Hh Ww (Path_str p) prompt extra_pnginfo
                (MkWorld ({[Path_str (Path_parent p)]} ∪ dirs w) (files w))
                Hi Hsv) as (pil & d & ->).
    by exists pil.
Qed.





(** ** Floating point: an int times 1.0 rounds back to the int *)

Lemma digits2_pos_iter (p k : positive) :
  digits2_pos (Pos.iter xO p k) = (digits2_pos p + k)%positive.
Proof.
  induction k as [|k IH] using Pos.peano_ind.
  - simpl. lia.
  - rewrite Pos.iter_succ. simpl. rewrite IH. lia.
Qed.

Lemma Zpos_iter_xO (p k : positive) :
  Z.pos (Pos.iter xO p k) = (Z.pos p * 2 ^ Z.pos k)%Z.
Proof.
  induction k as [|k IH] using Pos.peano_ind.
  - simpl. lia.
  - rewrite Pos.iter_succ, Pos2Z.inj_xO, IH, Pos2Z.inj_succ.
    rewrite Z.pow_succ_r by lia. lia.
Qed.

Lemma digits2_pos_le (p : positive) (n : Z) :
  (0 <= n)%Z -> (Z.pos p < 2 ^ n)%Z -> (Z.pos (digits2_pos p) <= n)%Z.
Proof.
  revert n. induction p as [p IH|p IH|]; intros n Hn Hp; simpl.
  - assert (0 < n)%Z.
    { destruct (decide (n = 0%Z)) as [->|]; [simpl in Hp|]; lia. }
    rewrite Pos2Z.inj_succ.
    specialize (IH (n - 1)%Z ltac:(lia)).
    replace n with (Z.succ (n - 1)) in Hp by lia.
    rewrite Z.pow_succ_r in Hp by lia. lia.
  - assert (0 < n)%Z.
    { destruct (decide (n = 0%Z)) as [->|]; [simpl in Hp|]; lia. }
    rewrite Pos2Z.inj_succ.
    specialize (IH (n - 1)%Z ltac:(lia)).
    replace n with (Z.succ (n - 1)) in Hp by lia.
    rewrite Z.pow_succ_r in Hp by lia. lia.
  - destruct (decide (n = 0%Z)) as [->|]; [simpl in Hp|]; lia.
Qed.

(** A mantissa of 53 digits with an exponent in range needs no shift. *)
Lemma shr_fexp_canonical (m : positive) (e : Z) :
  digits2_pos m = 53%positive -> (-1074 <= e)%Z ->
  shr_fexp 53 1024 (Z.pos m) e loc_Exact =
    ({| shr_m := Z.pos m; shr_r := false; shr_s := false |}, e).
Proof.
  intros Hd He. unfold shr_fexp, Zdigits2, fexp, emin. rewrite Hd.
  replace (Z.max (53 + e - 53) (3 - 1024 - 53) - e)%Z with 0%Z by lia.
  reflexivity.
Qed.

Lemma binary_round_aux_canonical (s : bool) (m : positive) (e : Z) :
  digits2_pos m = 53%positive -> (-1074 <= e <= 971)%Z ->
  binary_round_aux 53 1024 s (Z.pos m) e loc_Exact = S754_finite s m e.
Proof.
  intros Hd He. unfold binary_round_aux.
  rewrite shr_fexp_canonical by (done || lia). simpl.
  rewrite shr_fexp_canonical by (done || lia). simpl.
  destruct (Z.leb_spec e (1024 - 53)); [done|lia].
Qed.

(** Dropping 52 zero bits from a product with 2^52 is exact. *)
Lemma shr_fexp_shift52 (m : positive) (e : Z) :
  digits2_pos m = 53%positive -> (-1074 <= e)%Z ->
  shr_fexp 53 1024 (Z.pos (Pos.iter xO m 52)) (e + -52) loc_Exact =
    ({| shr_m := Z.pos m; shr_r := false; shr_s := false |}, e).
Proof.
  intros Hd He. unfold shr_fexp, Zdigits2, fexp, emin.
  rewrite digits2_pos_iter, Hd.
  replace (Z.max (Z.pos (53 + 52) + (e + -52) - 53) (3 - 1024 - 53)
           - (e + -52))%Z with 52%Z by lia.
  unfold shr. f_equal. lia.
Qed.

Lemma float_mul_one (s : bool) (m : positive) (e : Z) :
  digits2_pos m = 53%positive -> (-1074 <= e <= 971)%Z ->
  float_mul (S754_finite s m e) float_one = S754_finite s m e.
Proof.
  intros Hd He.
  change float_one with (S754_finite false 4503599627370496 (-52)).
  unfold float_mul, SFmul.
  replace (m * 4503599627370496)%positive with (Pos.iter xO m 52)
    by (rewrite Pos.mul_comm; reflexivity).
  unfold binary_round_aux.
  rewrite shr_fexp_shift52 by (done || lia). simpl.
  rewrite shr_fexp_canonical by (done || lia). simpl.
  rewrite xorb_false_r.
  destruct (Z.leb_spec e (1024 - 53)); [done|lia].
Qed.

(** A positive int below 2^53 converts exactly. *)
Lemma float_of_int_pos (p : positive) :
  (Z.pos p < 2 ^ 53)%Z ->
  exists m e, float_of_int (Z.pos p) = Ok (S754_finite false m e) /\
    digits2_pos m = 53%positive /\ (-52 <= e <= 0)%Z /\
    Z.pos m = (Z.pos p * 2 ^ (- e))%Z.
Proof.
  intros Hp. pose proof (digits2_pos_le p 53 ltac:(lia) Hp) as Hd.
  unfold float_of_int, binary_normalize, binary_round, shl_align.
  unfold fexp, emin.
  replace (Z.max (Z.pos (digits2_pos p) + 0 - 53) (3 - 1024 - 53) - 0)%Z
    with (Z.pos (digits2_pos p) - 53)%Z by lia.
  replace (Z.max (Z.pos (digits2_pos p) + 0 - 53) (3 - 1024 - 53))%Z
    with (Z.pos (digits2_pos p) - 53)%Z by lia.
  destruct (Z.pos (digits2_pos p) - 53)%Z as [|k|k] eqn:Ek; [|lia|].
  - assert (Hd53 : digits2_pos p = 53%positive) by lia.
    rewrite binary_round_aux_canonical by (done || lia).
    exists p, 0%Z. repeat split; try done; lia.
  - assert (Hdk : digits2_pos (Pos.iter xO p k) = 53%positive)
      by (rewrite digits2_pos_iter; lia).
    rewrite binary_round_aux_canonical by (done || lia).
    exists (Pos.iter xO p k), (Z.neg k). repeat split; try done; try lia.
    rewrite Zpos_iter_xO. done.
Qed.

Lemma py_round_exact (m : positive) (e n : Z) :
  (e <= 0)%Z -> Z.pos m = (n * 2 ^ (- e))%Z ->
  py_round (S754_finite false m e) = Ok n.
Proof.
  intros He Hm. unfold py_round, cond_Zopp. f_equal.
  destruct (Z.leb_spec 0 e) as [H0|H0].
  - assert (e = 0%Z) as -> by lia. simpl in *. lia.
  - unfold round_half_even_div. rewrite Hm.
    assert (0 < 2 ^ (- e))%Z by (apply Z.pow_pos_nonneg; lia).
    rewrite Z.mod_mul, Z.div_mul by lia.
    destruct (Z.compare_spec (2 * 0) (2 ^ (- e))); [lia|done|lia].
Qed.

(** [round(n * 1.0) = n] for a non-negative int that a float holds. *)
Lemma round_int_mul_one (n : Z) :
  (0 <= n < 2 ^ 53)%Z ->
  int_mul_float n float_one ≫= py_round = Ok n.
Proof.
  intros [H0 Hn]. destruct n as [|p|p]; [reflexivity| |lia].
  destruct (float_of_int_pos p Hn) as (m & e & Hf & Hd & He & Hm).
  unfold int_mul_float. rewrite Hf. unfold mbind, result_bind.
  rewrite float_mul_one by (done || lia).
  by apply py_round_exact; [lia|].
Qed.

(** ** Resize nodes *)

Lemma comfyui_to_native_torch_shape {A} (t : Tensor A) (N Hh Ww C : nat) :
  shape t = [N; Hh; Ww; C] ->
  exists t', comfyui_to_native_torch t = Ok t' /\ shape t' = [N; C; Hh; Ww].
Proof.
  intros Hs. destruct (shape_4d_inv _ _ _ _ _ Hs) as (s0 & s1 & s2 & s3 & E).
  rewrite (comfyui_to_native_torch_4d t _ _ _ _ E). by eexists.
Qed.

Lemma native_torch_to_comfyui_shape {A} (t : Tensor A) (N C Hh Ww : nat) :
  shape t = [N; C; Hh; Ww] ->
  exists t', native_torch_to_comfyui t = Ok t' /\ shape t' = [N; Hh; Ww; C].
Proof.
  intros Hs. destruct (shape_4d_inv _ _ _ _ _ Hs) as (s0 & s1 & s2 & s3 & E).
  rewrite (native_torch_to_comfyui_4d t _ _ _ _ E). by eexists.
Qed.

(** The resize primitive on an NCHW tensor and an (h, w) pair: the result
    has height [h] and width [w], when the image already has that size or
    all sizes are positive. *)
Lemma Resize_HW_shape `{External} (img : Tensor f32) (N C Hh Ww : nat)
    (new_h new_w : Z) (k : InterpolationMode) :
  shape img = [N; C; Hh; Ww] ->
  (Z.of_nat Hh = new_h /\ Z.of_nat Ww = new_w) \/
  ((0 < new_h)%Z /\ (0 < new_w)%Z /\ 0 < Hh /\ 0 < Ww /\ 0 < C) ->
  exists out, Resize (SizeHW new_h new_w) k true img = Ok out /\
    shape out = [N; C; Z.to_nat new_h; Z.to_nat new_w].
Proof.
  intros Hs Hc. unfold Resize. rewrite Hs. simpl.
  case_bool_decide as Heq.
  - exists img. split; [done|]. destruct Heq as [<- <-].
    by rewrite !Nat2Z.id.
  - destruct Hc as [?|(Hh0 & Hw0 & HH & HW & HC)]; [done|].
    rewrite <- ndim_shape, Hs. simpl.
    rewrite bool_decide_eq_true_2 by done.
    destruct (Nat.ltb_spec 0 Hh); [|lia].
    destruct (Nat.ltb_spec 0 Ww); [|lia].
    rewrite bool_decide_eq_true_2 by (intros [=]; lia). simpl.
    eexists. split; [done|]. by rewrite shape_contiguous.
Qed.

(** Convert to NCHW, resize to (h, w), convert back. *)
Lemma resize_pipeline_shape `{External} (image : Tensor f32)
    (N Hh Ww C : nat) (new_h new_w : Z) (k : InterpolationMode) :
  shape image = [N; Hh; Ww; C] ->
  (Z.of_nat Hh = new_h /\ Z.of_nat Ww = new_w) \/
  ((0 < new_h)%Z /\ (0 < new_w)%Z /\ 0 < Hh /\ 0 < Ww /\ 0 < C) ->
  exists out,
    (image ← comfyui_to_native_torch image;
     image ← Resize (SizeHW new_h new_w) k true image;
     image ← native_torch_to_comfyui image;
     Ok image) = Ok out /\
    shape out = [N; Z.to_nat new_h; Z.to_nat new_w; C].
Proof.
  intros Hs Hc.
  destruct (comfyui_to_native_torch_shape image _ _ _ _ Hs) as (t1 & -> & Hs1).
  simpl.
  destruct (Resize_HW_shape t1 _ _ _ _ new_h new_w k Hs1 Hc) as (t2 & -> & Hs2).
  simpl.
  destruct (native_torch_to_comfyui_shape t2 _ _ _ _ Hs2) as (t3 & -> & Hs3).
  simpl. by exists t3.
Qed.

(** C8. The resize-by-factor node resizes an (N, H, W, C) image to height
    [round(H * factor)] and width [round(W * factor)]: when both roundings
    give positive ints and the image is not empty, it returns a tensor of
    shape (N, round(H * factor), round(W * factor), C).  With factor 1.0
    (and H, W below 2^53, so that a float holds them) the result has the
    shape of the input. *)
Theorem resize_by_factor_shape `{External} (image : Tensor f32)
    (N Hh Ww C : nat) (s : string) (k : InterpolationMode) :
  shape image = [N; Hh; Ww; C] ->
  lookup_interpolation_mode s = Ok k ->
  (forall (factor : float) (new_height new_width : Z),
     int_mul_float (Z.of_nat Hh) factor ≫= py_round = Ok new_height ->
     int_mul_float (Z.of_nat Ww) factor ≫= py_round = Ok new_width ->
     (0 < new_height)%Z -> (0 < new_width)%Z ->
     0 < Hh -> 0 < Ww -> 0 < C ->
     exists out,
       JWImageResizeByFactor_execute image factor s = Ok out /\
       shape out = [N; Z.to_nat new_height; Z.to_nat new_width; C]) /\
  ((Z.of_nat Hh < 2 ^ 53)%Z -> (Z.of_nat Ww < 2 ^ 53)%Z ->
   exists out,
     JWImageResizeByFactor_execute image float_one s = Ok out /\
     shape out = shape image).
Proof.
  intros Hs Hk. split.
  - intros factor nh nw Hnh Hnw ? ? ? ? ?.
    unfold JWImageResizeByFactor_execute. rewrite Hk, Hs.
    change (tuple_get [N; Hh; Ww; C] 1) with (Ok (A:=nat) Hh).
    change (tuple_get [N; Hh; Ww; C] 2) with (Ok (A:=nat) Ww).
    unfold mbind at 1 2, result_bind at 1 2.
    rewrite Hnh. unfold mbind at 1 2, result_bind at 1 2.
    rewrite Hnw. unfold mbind at 1, result_bind at 1.
    apply (resize_pipeline_shape image N Hh Ww C); [done|]. right. done.
  - intros HH HW.
    unfold JWImageResizeByFactor_execute. rewrite Hk, Hs.
    change (tuple_get [N; Hh; Ww; C] 1) with (Ok (A:=nat) Hh).
    change (tuple_get [N; Hh; Ww; C] 2) with (Ok (A:=nat) Ww).
    unfold mbind at 1 2, result_bind at 1 2.
    rewrite (round_int_mul_one (Z.of_nat Hh)) by lia.
    unfold mbind at 1 2, result_bind at 1 2.
    rewrite (round_int_mul_one (Z.of_nat Ww)) by lia.
    unfold mbind at 1, result_bind at 1.
    destruct (resize_pipeline_shape image N Hh Ww C (Z.of_nat Hh) (Z.of_nat Ww)
                k Hs) as (out & Ho & Hso); [by left|].
    exists out. split; [exact Ho|]. by rewrite Hso, !Nat2Z.id.
Qed.

(** C2. The resize-by-longer-side node on an (N, H, W, C) image: if
    H >= W then new_h = size and new_w = round(W * size / H), otherwise
    new_w = size and new_h = round(H * size / W); the resize primitive is
    given (new_w, new_h), so the result has height new_w and width new_h:
    its shape is (N, new_w, new_h, C). *)
Theorem resize_by_longer_side_shape `{External} (image : Tensor f32)
    (N Hh Ww C : nat) (size : Z) (s : string) (k : InterpolationMode)
    (new_w new_h : Z) :
  shape image = [N; Hh; Ww; C] ->
  lookup_interpolation_mode s = Ok k ->
  (Ww <= Hh ->
   new_h = size /\
   int_truediv (Z.of_nat Ww * new_h) (Z.of_nat Hh) ≫= py_round = Ok new_w) ->
  (Hh < Ww ->
   new_w = size /\
   int_truediv (Z.of_nat Hh * new_w) (Z.of_nat Ww) ≫= py_round = Ok new_h) ->
  (0 < new_w)%Z -> (0 < new_h)%Z -> 0 < Hh -> 0 < Ww -> 0 < C ->
  exists out,
    JWImageResizeByLongerSide_execute image size s = Ok out /\
    shape out = [N; Z.to_nat new_w; Z.to_nat new_h; C].
Proof.
  intros Hs Hk Hge Hlt ? ? ? ? ?.
  unfold JWImageResizeByLongerSide_execute. rewrite Hk, Hs.
  unfold mbind at 1, result_bind at 1.
  assert (Hdims :
    (if (Z.of_nat Hh >=? Z.of_nat Ww)%Z
     then new_w0 ← int_truediv (Z.of_nat Ww * size) (Z.of_nat Hh) ≫= py_round;
          Ok (new_w0, size)
     else new_h0 ← int_truediv (Z.of_nat Hh * size) (Z.of_nat Ww) ≫= py_round;
          Ok (size, new_h0)) = Ok (new_w, new_h)).
  { destruct (Z.geb_spec (Z.of_nat Hh) (Z.of_nat Ww)).
    - destruct Hge as [-> ->]; [lia|]. done.
    - destruct Hlt as [-> ->]; [lia|]. done. }
  rewrite Hdims. unfold mbind at 1, result_bind at 1.
  apply (resize_pipeline_shape image N Hh Ww C); [done|]. right. done.
Qed.

(** * Further properties *)

(** ** Values of views *)





(** ** What [save_image] writes *)




(** ** Loading *)

Lemma byte_cases (P : Z -> bool) :
  forallb P (seqZ 0 256) = true ->
  forall b, (0 <= b < 256)%Z -> P b = true.
Proof.
  intros HP b Hb. rewrite forallb_forall in HP. apply HP.
  apply list_elem_of_In, elem_of_seqZ. lia.
Qed.

Lemma byte_scaled_range (b : Z) :
  (0 <= b < 256)%Z ->
  SFleb f32_zero (f32_div (f32_of_Z b) f32_255) = true /\
  SFleb (f32_div (f32_of_Z b) f32_255) f32_one = true.
Proof.
  intros Hb. apply andb_true_iff.
  apply (byte_cases (fun b =>
    SFleb f32_zero (f32_div (f32_of_Z b) f32_255)
    && SFleb (f32_div (f32_of_Z b) f32_255) f32_one)); [|done].
  by vm_compute.
Qed.


(** X3.  What [load_image] returns in RGB mode, and so the RGB load node:
    a (1, H, W, 3) tensor whose element [0, h, w, c] is band [c] of the
    pixel in row [h] and column [w], divided by 255 in float32. *)
Theorem load_rgb_values `{External} (path : string) (im : PILImage) :
  Image_open_convert path "RGB" = Ok im ->
  pil_valid "RGB" 3 im ->
  exists t,
    JWImageLoadRGB_execute path = Ok t /\
    shape t = [1; pil_height im; pil_width im; 3] /\
    forall h w c b,
      h < pil_height im -> w < pil_width im -> c < 3 ->
      pil_band_at im h w c = Some b ->
      item t [0; h; w; c] = Some (f32_div (f32_of_Z b) f32_255).
Proof.
  intros Hopen Hv. unfold JWImageLoadRGB_execute.
  rewrite (load_image_valid path "RGB" 3 im Hopen Hv) by lia.
  eexists. split; [done|]. split; [done|].
  intros h w c b Hh Hw Hc Hb. unfold item. simpl.
  destruct (Nat.ltb_spec h (pil_height im)); [|lia].
  destruct (Nat.ltb_spec w (pil_width im)); [|lia].
  destruct (Nat.ltb_spec c 3); [|lia]. simpl.
  rewrite list_lookup_fmap.
  unfold pil_band_at in Hb. destruct Hv as (_ & Hbands & _).
  rewrite Hbands in Hb.
  match goal with
  | |- _ <$> _ !! ?k = _ =>
      replace k with ((h * pil_width im + w) * 3 + c) by lia
  end.
  by rewrite Hb.
Qed.

(** X4.  A loaded tensor holds values between 0 and 1: when the decoded
    bytes are 8-bit, every element of what [load_image] returns is at
    least 0 and at most 1. *)
Theorem load_image_unit_range `{External} (path mode : string) (bands : nat)
    (im : PILImage) :
  Image_open_convert path mode = Ok im ->
  pil_valid mode bands im ->
  bands ≠ 1 ->
  Forall (fun b => 0 <= b < 256)%Z (pil_data im) ->
  exists t, load_image path mode = Ok t /\
    forall idx x, item t idx = Some x ->
      SFleb f32_zero x = true /\ SFleb x f32_one = true.
Proof.
  intros Hopen Hv Hne Hbytes.
  rewrite (load_image_valid path mode bands im Hopen Hv Hne).
  eexists. split; [done|]. intros idx x. unfold item.
  destruct (in_bounds _ idx); [|done]. simpl.
  rewrite list_lookup_fmap. intros Hx.
  destruct (pil_data im !! _) as [b|] eqn:Eb; [|done].
  simpl in Hx. injection Hx as <-.
  apply byte_scaled_range. rewrite Forall_forall in Hbytes.
  eapply Hbytes, list_elem_of_lookup_2, Eb.
Qed.

(** ** Loading, then saving *)


(** ** The save node: what it leaves alone, and how it fails *)


Lemma for_each_save_frame `{External} (p : PurePath) (prompt : option PyObj)
    (extra_pnginfo : option (list (string * PyObj))) (q : string)
    (l : list (nat * Tensor f32)) (w : World) :
  (forall (i : nat) sub,
     Path_with_stem p (Path_stem p +:+ "-" +:+ pretty i) = Ok sub ->
     q ≠ Path_str sub) ->
  files (for_each (fun '(i, img) =>
           subpath ← lift (Path_with_stem p (Path_stem p +:+ "-" +:+ pretty i));
           _ ← save_image img (Path_str subpath) prompt extra_pnginfo;
           mret tt) l w).2 !! q = files w !! q.
Proof.
  intros Hq. revert w. induction l as [|[i img] l IH]; intros w; [done|].
  simpl. unfold mbind at 1, IO_bind at 1.
  unfold mbind at 1, IO_bind at 1, lift at 1.
  destruct (Path_with_stem p _) as [sub|e] eqn:Esub; [|done].
  unfold mbind at 1, IO_bind at 1.
  pose proof (save_image_frame img (Path_str sub) prompt extra_pnginfo w q
                (Hq i sub Esub)) as Hf.
  destruct (save_image img (Path_str sub) prompt extra_pnginfo w)
    as [[d|e] w'] eqn:Es; simpl in Hf; [|done].
  unfold mret at 1, IO_ret at 1. by rewrite IH.
Qed.

(** X6.  The save node touches no file but the base path and the indexed
    paths: whatever the image, the paths and the outcome of each step, a
    file that is neither [str(Path(path))] nor the result of [with_stem]
    for some index is left as it was. *)
Theorem save_node_frame `{External} (path : string) (image : Tensor f32)
    (prompt : option PyObj) (extra_pnginfo : option (list (string * PyObj)))
    (w : World) (q : string) :
  q ≠ Path_str (Path path) ->
  (forall (i : nat) sub,
     Path_with_stem (Path path) (Path_stem (Path path) +:+ "-" +:+ pretty i)
       = Ok sub ->
     q ≠ Path_str sub) ->
  files (JWImageSaveToPath_execute path image prompt extra_pnginfo w).2 !! q
    = files w !! q.
Proof.
  intros Hbase Hsub.
  unfold JWImageSaveToPath_execute, mbind at 1, IO_bind at 1, Path_mkdir.
  destruct (io_error _); [done|].
  unfold mbind at 1, IO_bind at 1, lift at 1.
  destruct (tuple_get (shape image) 0) as [n|e]; [|done].
  destruct (n =? 1).
  - unfold mbind at 1, IO_bind at 1, lift at 1.
    destruct (getitem [Int 0] image) as [img|e]; [|done].
    unfold mbind at 1, IO_bind at 1.
    pose proof (save_image_frame img (Path_str (Path path)) prompt
                  extra_pnginfo
                  (MkWorld ({[Path_str (Path_parent (Path path))]} ∪ dirs w)
                     (files w)) q Hbase) as Hf.
    by destruct (save_image _ _ _ _ _) as [[d|e] w'].
  - unfold mbind at 1, IO_bind at 1, lift at 1.
    destruct (unbind0 image) as [imgs|e]; [|done].
    by rewrite for_each_save_frame.
Qed.

(** X7.  An empty batch.  When the first dimension of the image is 0 and
    the directory can be made, the save node succeeds and writes no file,
    whatever the other dimensions and whether or not the path has a
    name. *)
Theorem save_empty_batch `{External} (path : string) (image : Tensor f32)
    (prompt : option PyObj) (extra_pnginfo : option (list (string * PyObj)))
    (w : World) :
  shape image !! 0 = Some 0 ->
  io_error (Mkdir (Path_str (Path_parent (Path path)))) = None ->
  JWImageSaveToPath_execute path image prompt extra_pnginfo w =
    (Ok tt,
     MkWorld ({[Path_str (Path_parent (Path path))]} ∪ dirs w) (files w)).
Proof.
  intros Hs Hmk.
  unfold JWImageSaveToPath_execute, mbind at 1, IO_bind at 1, Path_mkdir.
  rewrite Hmk. unfold mbind at 1, IO_bind at 1, lift at 1.
  unfold tuple_get. rewrite Hs. simpl.
  unfold mbind at 1, IO_bind at 1, lift at 1. unfold unbind0.
  unfold shape in Hs. destruct (axes image) as [|[n st] ax]; [done|].
  simpl in Hs. injection Hs as ->. reflexivity.
Qed.



(** X9.  A batch of images that do not have 3 channels.  With two or more
    images, the first [save_image] raises the channel-count ValueError and
    the node stops: no file is written. *)
Theorem save_batch_wrong_channels `{External} (path : string)
    (image : Tensor f32) (N Hh Ww C : nat) (prompt : option PyObj)
    (extra_pnginfo : option (list (string * PyObj))) (w : World) :
  shape image = [N; Hh; Ww; C] ->
  2 <= N ->
  C ≠ 3 ->
  Path_name (Path path) ≠ "" ->
  io_error (Mkdir (Path_str (Path_parent (Path path)))) = None ->
  JWImageSaveToPath_execute path image prompt extra_pnginfo w =
    (Raise (ValueError
       ("image must have 3 channels, but got " +:+ pretty C +:+ " channels")),
     MkWorld ({[Path_str (Path_parent (Path path))]} ∪ dirs w) (files w)).
Proof.
  intros Hs HN HC Hname Hmk.
  destruct (shape_4d_inv _ _ _ _ _ Hs) as (s0 & s1 & s2 & s3 & E).
  unfold JWImageSaveToPath_execute, mbind at 1, IO_bind at 1, Path_mkdir.
  rewrite Hmk. unfold mbind at 1, IO_bind at 1, lift at 1. rewrite Hs. simpl.
  destruct (Nat.eqb_spec N 1) as [|_]; [lia|].
  unfold mbind at 1, IO_bind at 1, lift at 1. unfold unbind0. rewrite E.
  destruct N as [|N]; [lia|]. simpl.
  unfold mbind at 1, IO_bind at 1.
  unfold mbind at 1, IO_bind at 1, lift at 1.
  rewrite (Path_with_stem_index path 0 Hname).
  unfold mbind at 1, IO_bind at 1.
  unfold save_image at 1. simpl.
  unfold mbind, IO_bind, lift. simpl.
  destruct (Nat.eqb_spec C 3) as [|_]; [done|]. reflexivity.
Qed.

(** ** Mode strings: case, spaces and underscores *)

Lemma ascii_upper_replace (c : ascii) :
  (if Ascii.eqb (ascii_upper c) " " then "_"%char else ascii_upper c) =
  ascii_upper (if Ascii.eqb c " " then "_"%char else c).
Proof. by destruct c as [[] [] [] [] [] [] [] []]. Qed.

Lemma str_upper_replace (s : string) :
  str_replace " " "_" (str_map ascii_upper s) =
  str_map ascii_upper (str_replace " " "_" s).
Proof.
  unfold str_replace. induction s as [|c s IH]; [done|]. simpl.
  by rewrite IH, ascii_upper_replace.
Qed.

(** X10.  The mode lookup ignores letter case and does not tell a space from
    an underscore: two ASCII strings that are equal once spaces are
    replaced by underscores and letters are upper-cased select the same
    kernel, or fail with the same error. *)
Theorem lookup_interpolation_mode_folds `{External} (s t : string) :
  is_ascii s = true ->
  is_ascii t = true ->
  str_map ascii_upper (str_replace " " "_" s) =
    str_map ascii_upper (str_replace " " "_" t) ->
  lookup_interpolation_mode s = lookup_interpolation_mode t.
Proof.
  intros Hs Ht Heq. unfold lookup_interpolation_mode, str_upper.
  by rewrite Hs, Ht, !str_upper_replace, Heq.
Qed.

(** ** The theorems at sample inputs *)

Lemma converters_round_trip_witness :
  ndim sample_nhwc = 4 /\
  (comfyui_to_native_torch sample_nhwc ≫= native_torch_to_comfyui) = Ok sample_nhwc.
Proof.
  split; [reflexivity|].
  exact (proj1 (converters_round_trip sample_nhwc eq_refl)).
Defined.

Lemma save_image_wrong_channels_witness :
  shape sample_rgba_tensor = [1; 1; 4] /\ 4 ≠ 3 /\
  @save_image sample_env sample_rgba_tensor "out.png" None None empty_world =
    (Raise (ValueError "image must have 3 channels, but got 4 channels"),
     empty_world).
Proof.
  split; [reflexivity|]. split; [lia|].
  apply (@save_image_wrong_channels sample_env sample_rgba_tensor 1 1 4);
    [reflexivity | lia].
Defined.


Lemma unknown_interpolation_mode_fails_witness :
  (str_replace " " "_" (@str_upper sample_env "lanczos 3") ∉ kernel_names) /\
  @JWImageResize_execute sample_env (sample_batch 1) 4 4 "lanczos 3" =
    Raise (AttributeError
             "type object 'InterpolationMode' has no attribute 'LANCZOS_3'").
Proof.
  assert (Hn : str_replace " " "_" (@str_upper sample_env "lanczos 3")
               ∉ kernel_names)
    by (apply (bool_decide_unpack _); vm_compute; exact I).
  split; [exact Hn|].
  exact (proj1 (proj2 (@unknown_interpolation_mode_fails sample_env
                         "lanczos 3" Hn)) (sample_batch 1) 4%Z 4%Z).
Defined.

Lemma sample_rgba_valid : pil_valid "RGBA" 4 sample_rgba.
Proof. repeat split. Qed.

Lemma load_rgba_mask_inverts_alpha_witness :
  @Image_open_convert sample_env "rgba.png" "RGBA" = Ok sample_rgba /\
  pil_valid "RGBA" 4 sample_rgba /\
  exists color mask,
    @JWImageLoadRGBA_execute sample_env "rgba.png" = Ok (color, mask) /\
    item mask [0; 0] = Some f32_zero /\
    item mask [0; 1] = Some f32_one.
Proof.
  split; [reflexivity|]. split; [exact sample_rgba_valid|].
  destruct (@load_rgba_mask_inverts_alpha sample_env "rgba.png" sample_rgba
              eq_refl sample_rgba_valid)
    as (color & mask & Hex & _ & Hitem & _).
  exists color, mask. split; [exact Hex|]. split.
  - apply (Hitem 0 0 255%Z); [simpl; lia | simpl; lia | reflexivity].
  - apply (Hitem 0 1 0%Z); [simpl; lia | simpl; lia | reflexivity].
Defined.

Lemma load_rgba_mask_shape_witness :
  @Image_open_convert sample_env "rgba.png" "RGBA" = Ok sample_rgba /\
  pil_valid "RGBA" 4 sample_rgba /\
  exists color mask,
    @JWImageLoadRGBA_execute sample_env "rgba.png" = Ok (color, mask) /\
    shape mask = [1; 2] /\ shape color = [1; 1; 2; 3].
Proof.
  split; [reflexivity|]. split; [exact sample_rgba_valid|].
  exact (@load_rgba_mask_shape sample_env "rgba.png" sample_rgba
           eq_refl sample_rgba_valid).
Defined.

Lemma save_single_image_no_suffix_witness :
  shape (sample_batch 1) = [1; 1; 2; 3] /\
  exists pil,
    @JWImageSaveToPath_execute sample_env "./d/out.png" (sample_batch 1)
      None None empty_world =
    (Ok tt, MkWorld {["d"]} {["d/out.png" := MkPng pil [] 4]}).
Proof.
  split; [reflexivity|].
  destruct (proj2 (@save_single_image_no_suffix sample_env "./d/out.png"
                     (sample_batch 1) 1 2 3 None None empty_world eq_refl)
              eq_refl eq_refl eq_refl) as [pil Hpil].
  exists pil. exact Hpil.
Defined.


Lemma resize_by_factor_shape_witness :
  shape (sample_batch 1) = [1; 1; 2; 3] /\
  @lookup_interpolation_mode sample_env "bicubic" = Ok BICUBIC /\
  (exists out,
     @JWImageResizeByFactor_execute sample_env (sample_batch 1)
       (binary_normalize 53 1024 5 (-1) false) "bicubic" = Ok out /\
     shape out = [1; 2; 5; 3]) /\
  (exists out,
     @JWImageResizeByFactor_execute sample_env (sample_batch 1)
       float_one "bicubic" = Ok out /\
     shape out = [1; 1; 2; 3]).
Proof.
  split; [reflexivity|]. split; [reflexivity|].
  destruct (@resize_by_factor_shape sample_env (sample_batch 1) 1 1 2 3
              "bicubic" BICUBIC eq_refl eq_refl) as [Hgen Hone].
  split.
  - apply (Hgen (binary_normalize 53 1024 5 (-1) false) 2%Z 5%Z);
      (reflexivity || lia).
  - apply Hone; vm_compute; reflexivity.
Defined.

Lemma resize_by_longer_side_shape_witness :
  shape (sample_batch 1) = [1; 1; 2; 3] /\
  @lookup_interpolation_mode sample_env "nearest exact" = Ok NEAREST_EXACT /\
  exists out,
    @JWImageResizeByLongerSide_execute sample_env (sample_batch 1) 5
      "nearest exact" = Ok out /\
    shape out = [1; 5; 2; 3].
Proof.
  split; [reflexivity|]. split; [reflexivity|].
  apply (@resize_by_longer_side_shape sample_env (sample_batch 1) 1 1 2 3
           5%Z "nearest exact" NEAREST_EXACT 5%Z 2%Z);
    try reflexivity; try lia.
  intros _. split; reflexivity.
Defined.

(** ** The further properties at sample inputs *)



Lemma sample_rgb_valid : pil_valid "RGB" 3 sample_rgb.
Proof. repeat split. Qed.

Lemma sample_rgb_bytes : Forall (fun b => 0 <= b < 256)%Z (pil_data sample_rgb).
Proof. repeat constructor; lia. Qed.

Lemma load_rgb_values_witness :
  pil_valid "RGB" 3 sample_rgb /\
  exists t,
    @JWImageLoadRGB_execute sample_env_rgb "rgb.png" = Ok t /\
    shape t = [1; 1; 2; 3] /\
    item t [0; 0; 0; 2] = Some f32_one.
Proof.
  split; [exact sample_rgb_valid|].
  destruct (@load_rgb_values sample_env_rgb "rgb.png" sample_rgb eq_refl
              sample_rgb_valid) as (t & Ht & Hs & Hitem).
  exists t. split; [exact Ht|]. split; [exact Hs|].
  apply (Hitem 0 0 2 255%Z); [simpl; lia | simpl; lia | lia | reflexivity].
Defined.

Lemma load_image_unit_range_witness :
  pil_valid "RGB" 3 sample_rgb /\ 3 ≠ 1 /\
  exists t, @load_image sample_env_rgb "rgb.png" "RGB" = Ok t /\
    forall idx x, item t idx = Some x ->
      SFleb f32_zero x = true /\ SFleb x f32_one = true.
Proof.
  split; [exact sample_rgb_valid|]. split; [lia|].
  apply (@load_image_unit_range sample_env_rgb "rgb.png" "RGB" 3 sample_rgb
           eq_refl sample_rgb_valid ltac:(lia) sample_rgb_bytes).
Defined.


Lemma save_node_frame_witness :
  "other.png" ≠ Path_str (Path "out.png") /\
  files (@JWImageSaveToPath_execute sample_env "out.png" (sample_batch 3)
           None None empty_world).2 !! "other.png" = None.
Proof.
  assert (Hb : "other.png" ≠ Path_str (Path "out.png"))
    by (vm_compute; discriminate).
  split; [exact Hb|].
  rewrite (@save_node_frame sample_env "out.png" (sample_batch 3) None None
             empty_world "other.png" Hb); [reflexivity|].
  intros i sub Hsub.
  rewrite (Path_with_stem_index "out.png" i) in Hsub
    by (vm_compute; discriminate).
  injection Hsub as <-. vm_compute. discriminate.
Defined.

Lemma save_empty_batch_witness :
  shape (sample_batch 0) !! 0 = Some 0 /\
  @JWImageSaveToPath_execute sample_env "d/out.png" (sample_batch 0) None None
    empty_world = (Ok tt, MkWorld {["d"]} ∅).
Proof.
  split; [reflexivity|].
  rewrite (@save_empty_batch sample_env "d/out.png" (sample_batch 0) None None
             empty_world eq_refl eq_refl).
  reflexivity.
Defined.


Lemma save_batch_wrong_channels_witness :
  shape sample_rgba_batch = [2; 1; 1; 4] /\ 2 <= 2 /\ 4 ≠ 3 /\
  @JWImageSaveToPath_execute sample_env "out.png" sample_rgba_batch None None
    empty_world =
    (Raise (ValueError "image must have 3 channels, but got 4 channels"),
     MkWorld {["."]} ∅).
Proof.
  split; [reflexivity|]. split; [lia|]. split; [lia|].
  rewrite (@save_batch_wrong_channels sample_env "out.png" sample_rgba_batch
             2 1 1 4 None None empty_world eq_refl ltac:(lia) ltac:(lia)
             ltac:(vm_compute; discriminate) eq_refl).
  reflexivity.
Defined.

Lemma lookup_interpolation_mode_folds_witness :
  is_ascii "Nearest_Exact" = true /\ is_ascii "nearest exact" = true /\
  @lookup_interpolation_mode sample_env "Nearest_Exact" = Ok NEAREST_EXACT.
Proof.
  split; [reflexivity|]. split; [reflexivity|].
  rewrite (@lookup_interpolation_mode_folds sample_env "Nearest_Exact"
             "nearest exact" eq_refl eq_refl eq_refl).
  reflexivity.
Defined.

